(** * Creator.js: the project scaffolding workflow

    A shallow embedding of [packages/cli/lib/Creator.js] and the properties
    of its orchestration pipeline: preset resolution, plugin resolution,
    the ordered and failure-tolerant [create] workflow, and the hook lists.

    JavaScript values live in a store of objects addressed by reference, so
    that sharing between the saved preset and what [create] hands to its
    collaborators can be stated.  Every method of the class is a computation
    in a state-and-exception monad over that store which also records, in
    program order, the observable actions it performs (console output,
    emitted events, spawned processes, file writes, interviews, hooks).

    Conventions of the model:
    - an object is the list of its own enumerable properties in enumeration
      order (insertion order, for keys that are not array indices); every
      object of the store is a plain object, so that beside its own
      properties it has the members of [Object.prototype]; functions are
      opaque values (their members are not read by the file) and arrays as
      a separate kind of object are outside the model;
    - numbers are the safe integers (magnitude at most 2^53 - 1), which
      JavaScript represents exactly and prints in decimal notation (the
      code does no arithmetic);
    - [await] is sequencing: the file has one thread of control and awaits
      every promise it creates;
    - the collaborators that are not part of the file ([loadOptions],
      [validatePreset], [loadModule], [inquirer], [execa], [writeFileTree],
      [loadRemotePreset], [Generator], the package manager) are the fields
      of a [Host] record: total functions of the current store and of their
      arguments that say how the call completes.  The console helpers and
      the listeners of the emitted events do not throw. *)

From Stdlib Require Import ZArith String Ascii List Bool Lia DecimalString.
From stdpp Require Import base list strings.
Import ListNotations.
Local Open Scope string_scope.
Local Open Scope list_scope.

(** ** JavaScript values and the object store *)

Abbreviation loc := nat.

Inductive prim :=
| PUndefined
| PNull
| PBool (b : bool)
| PNum (n : Z)
| PStr (s : string).

Inductive val :=
| VPrim (p : prim)
| VRef (l : loc)          (* a reference to an object of the store *)
| VFun (f : string)       (* a function: the export of a module, a built-in *)
| VNoop.                  (* the arrow function [() => {}] of resolvePlugins *)

Coercion VPrim : prim >-> val.

Definition VUndefined : val := VPrim PUndefined.
Definition VNull : val := VPrim PNull.
Definition VStr (s : string) : val := VPrim (PStr s).
Definition VBool (b : bool) : val := VPrim (PBool b).

Abbreviation object := (list (string * val)).
Abbreviation heap := (list (list (string * val))).

(** Plain data (a parsed JSON file, the answers of an interview) before it
    is allocated in the store. *)
Inductive jtree :=
| TPrim (p : prim)
| TObj (props : jprops)
with jprops :=
| TNil
| TCons (k : string) (t : jtree) (rest : jprops).

Scheme jtree_ind2 := Induction for jtree Sort Prop
  with jprops_ind2 := Induction for jprops Sort Prop.

(** ToBoolean *)
Definition truthy (v : val) : bool :=
  match v with
  | VPrim PUndefined | VPrim PNull => false
  | VPrim (PBool b) => b
  | VPrim (PNum n) => negb (Z.eqb n 0)
  | VPrim (PStr s) => negb (String.eqb s "")
  | VRef _ | VFun _ | VNoop => true
  end.

(** [a || b] on already evaluated operands. *)
Definition js_or (a b : val) : val := if truthy a then a else b.

Definition string_of_nat (n : nat) : string :=
  NilZero.string_of_uint (Nat.to_uint n).

(** The numbers of the model: the safe integers. *)
Definition safe_number (n : Z) : bool := (Z.abs n <=? 9007199254740991)%Z.

(** ToPropertyKey, for the left operand of [in] and computed member access.
    A safe integer is printed with its decimal digits (JavaScript turns to
    the exponent notation from 10^21 on, beyond the numbers of the model). *)
Definition to_key (v : val) : string :=
  match v with
  | VPrim PUndefined => "undefined"
  | VPrim PNull => "null"
  | VPrim (PBool true) => "true"
  | VPrim (PBool false) => "false"
  | VPrim (PNum n) => NilZero.string_of_int (Z.to_int n)
  | VPrim (PStr s) => s
  | VRef _ => "[object Object]"
  | VFun f => f
  | VNoop => "() => {}"
  end.

(** Own properties of an object. *)
Fixpoint obj_get (o : object) (k : string) : option val :=
  match o with
  | [] => None
  | (k', v) :: rest => if String.eqb k' k then Some v else obj_get rest k
  end.

(** Assignment [o[k] = v]: in place when the key exists, appended otherwise. *)
Fixpoint obj_set (o : object) (k : string) (v : val) : object :=
  match o with
  | [] => [(k, v)]
  | (k', v') :: rest =>
      if String.eqb k' k then (k', v) :: rest else (k', v') :: obj_set rest k v
  end.

Definition obj_keys (o : object) : list string := map fst o.

(** The members that a plain object inherits from [Object.prototype]:
    [constructor] is [Object], [__proto__] gives the prototype itself, the
    others are its methods.  The file calls none of them and reads no
    member of them: their values are kept as opaque built-ins. *)
Definition object_prototype_methods : list string :=
  ["__defineGetter__"; "__defineSetter__"; "hasOwnProperty"; "__lookupGetter__";
   "__lookupSetter__"; "isPrototypeOf"; "propertyIsEnumerable"; "toString";
   "valueOf"; "toLocaleString"].

Definition inherited (k : string) : option val :=
  if String.eqb k "constructor" then Some (VFun "Object")
  else if String.eqb k "__proto__" then Some (VFun "Object.prototype")
  else if existsb (String.eqb k) object_prototype_methods
       then Some (VFun ("Object.prototype." +:+ k))
       else None.

(** [o[k]] on a plain object: the own property, else the inherited member,
    else [undefined]. *)
Definition obj_lookup (o : object) (k : string) : val :=
  match obj_get o k with
  | Some v => v
  | None => default VUndefined (inherited k)
  end.

(** [k in o] on a plain object: own or inherited. *)
Definition obj_has (o : object) (k : string) : bool :=
  bool_decide (is_Some (obj_get o k)) || bool_decide (is_Some (inherited k)).

(** The characters of a string primitive seen as indexed properties. *)
Fixpoint string_chars (s : string) : list string :=
  match s with
  | EmptyString => []
  | String c rest => String c EmptyString :: string_chars rest
  end.

Definition index_keys (n : nat) : list string := map string_of_nat (seq 0 n).

Fixpoint assoc_index (ks : list string) (vs : list string) (k : string) : option string :=
  match ks, vs with
  | k' :: ks', v :: vs' => if String.eqb k' k then Some v else assoc_index ks' vs' k
  | _, _ => None
  end.

Definition string_get (s : string) (k : string) : val :=
  if String.eqb k "length" then VPrim (PNum (Z.of_nat (String.length s)))
  else match assoc_index (index_keys (String.length s)) (string_chars s) k with
       | Some c => VStr c
       | None => VUndefined
       end.

(** [s.includes(sub)] *)
Fixpoint includes (s sub : string) : bool :=
  String.prefix sub s ||
  match s with
  | EmptyString => false
  | String _ rest => includes rest sub
  end.

(** [s.split(/\s+/)] *)
Definition is_space (c : ascii) : bool :=
  let n := nat_of_ascii c in
  (n =? 32)%nat || ((9 <=? n)%nat && (n <=? 13)%nat).

Fixpoint split_ws_from (s : string) (cur : string) (in_gap : bool) : list string :=
  match s with
  | EmptyString => [cur]
  | String c rest =>
      if is_space c then
        if in_gap then split_ws_from rest cur true
        else cur :: split_ws_from rest "" true
      else split_ws_from rest (cur +:+ String c EmptyString) false
  end.

Definition split_ws (s : string) : list string := split_ws_from s "" false.

(** ** Exceptions, observable actions, the monad *)

Inductive exn :=
| TypeError (what : string)
| InvalidPreset
| Failure (tag : string).        (* an error raised by a collaborator *)

Inductive outcome (A : Type) :=
| Ok (a : A)
| Throw (e : exn).
Arguments Ok {A} a.
Arguments Throw {A} e.

Record plugin := {
  plugin_id : string;
  plugin_apply : val;
  plugin_options : val
}.

(** Texts handed to the console helpers, by the line that builds them. *)
Inductive msg :=
| MsgCreating (context : string)        (* line 74 *)
| MsgGitInit                            (* line 92 *)
| MsgInitPlugins                        (* line 98 *)
| MsgBlank                              (* log() *)
| MsgGenerating                         (* line 103 *)
| MsgInstallDeps                        (* line 113 *)
| MsgRunHooks                           (* line 120 *)
| MsgReadme                             (* line 131 *)
| MsgSuccess (name : string)            (* line 148 *)
| MsgCommitSkipped                      (* lines 152-155 *)
| MsgFetching (name : val)              (* line 188 *)
| MsgFetchFailed (name : val)           (* line 194 *)
| MsgPluginTitle (title : string).      (* line 223 *)

Inductive file_content :=
| JsonManifest (name : string) (version : string) (private : bool)
| ReadmeOf (pkg : val) (packageManager : val).

Inductive prompt_arg :=
| PromptFinal (prompts : list val)      (* resolveFinalPrompts() *)
| PromptModule (schema : val).          (* the export of `${id}/prompts` *)

(** One entry per action, in program order.  A call that may fail carries
    how it completed: [None] when it returned, [Some e] when it threw [e]. *)
Inductive event :=
| EvClearConsole (title : bool)
| EvLogWithSpinner (m : msg)
| EvStopSpinner
| EvLog (m : msg)
| EvWarn (m : msg)
| EvError (m : msg)
| EvConsoleLog (args : list val)
| EvEmit (name : string) (tag : string)
| EvNewPackageManager (context : string) (forcePackageManager : val) (failed : option exn)
| EvWriteFileTree (dir : string) (file : string) (content : file_content) (failed : option exn)
| EvExeca (command : string) (args : list string) (cwd : string) (failed : option exn)
| EvPrompt (arg : prompt_arg) (failed : option exn)
| EvLoadRemotePreset (name clone : val) (failed : option exn)
| EvValidatePreset (preset : val) (failed : option exn)
| EvNewGenerator (context : string) (pkg : val) (plugins : list plugin) (failed : option exn)
| EvInstall (failed : option exn)
| EvHook (id : nat) (failed : option exn)
| EvPrintExitLogs.

Definition M (A : Type) : Type := heap -> outcome A * heap * list event.

Definition ret {A} (a : A) : M A := fun h => (Ok a, h, []).

Definition throw {A} (e : exn) : M A := fun h => (Throw e, h, []).

Definition bind {A B} (m : M A) (f : A -> M B) : M B :=
  fun h =>
    match m h with
    | (Ok a, h1, evs1) =>
        match f a h1 with
        | (r, h2, evs2) => (r, h2, evs1 ++ evs2)
        end
    | (Throw e, h1, evs1) => (Throw e, h1, evs1)
    end.

(** [try { m } catch (e) { handler e }] *)
Definition try_catch {A} (m : M A) (handler : exn -> M A) : M A :=
  fun h =>
    match m h with
    | (Ok a, h1, evs1) => (Ok a, h1, evs1)
    | (Throw e, h1, evs1) =>
        match handler e h1 with
        | (r, h2, evs2) => (r, h2, evs1 ++ evs2)
        end
    end.

Definition emit (ev : event) : M unit := fun h => (Ok tt, h, [ev]).

Declare Scope js_scope.
Delimit Scope js_scope with js.
Notation "'let*' x ':=' m 'in' f" := (bind m (fun x => f))
  (at level 10, x name, m at level 100, f at level 200) : js_scope.
Notation "m1 ';;;' m2" := (bind m1 (fun _ => m2))
  (at level 100, m2 at level 200, right associativity) : js_scope.
Local Open Scope js_scope.

(** ** Operations on the store *)

(** An object literal: a fresh cell at the end of the store. *)
Definition alloc (o : object) : M val :=
  fun h => (Ok (VRef (length h)), h ++ [o], []).

(** Member access [v.k] / [v[k]]. *)
Definition get_prop (v : val) (k : string) : M val :=
  fun h =>
    match v with
    | VPrim PUndefined | VPrim PNull =>
        (Throw (TypeError "Cannot read properties of undefined or null"), h, [])
    | VPrim (PStr s) => (Ok (string_get s k), h, [])
    | VRef l =>
        match h !! l with
        | Some o => (Ok (obj_lookup o k), h, [])
        | None => (Ok VUndefined, h, [])
        end
    | _ => (Ok VUndefined, h, [])
    end.

(** Assignment [target[k] = v] on an object of the store. *)
Definition set_prop (target : loc) (k : string) (v : val) : M unit :=
  fun h => (Ok tt, alter (fun o => obj_set o k v) target h, []).

(** Own enumerable keys of a value, as [Object.keys] lists them. *)
Definition own_keys (h : heap) (v : val) : list string :=
  match v with
  | VRef l => match h !! l with Some o => obj_keys o | None => [] end
  | VPrim (PStr s) => index_keys (String.length s)
  | _ => []
  end.

Definition Object_keys (v : val) : M (list string) :=
  fun h =>
    match v with
    | VPrim PUndefined | VPrim PNull =>
        (Throw (TypeError "Cannot convert undefined or null to object"), h, [])
    | _ => (Ok (own_keys h v), h, [])
    end.

(** [k in v]: the property is looked up along the prototype chain. *)
Definition has_property (k : val) (v : val) : M bool :=
  fun h =>
    match v with
    | VRef l =>
        match h !! l with
        | Some o => (Ok (obj_has o (to_key k)), h, [])
        | None => (Ok false, h, [])
        end
    | VFun _ | VNoop => (Ok false, h, [])
    | VPrim _ =>
        (Throw (TypeError "Cannot use 'in' operator to search in a primitive"), h, [])
    end.

(** Allocation of plain data, children first. *)
Fixpoint alloc_tree (t : jtree) (h : heap) : val * heap :=
  match t with
  | TPrim p => (VPrim p, h)
  | TObj props =>
      let '(o, h1) := alloc_props props [] h in
      (VRef (length h1), h1 ++ [o])
  end
with alloc_props (ps : jprops) (acc : object) (h : heap) : object * heap :=
  match ps with
  | TNil => (acc, h)
  | TCons k t rest =>
      let '(v, h1) := alloc_tree t h in
      alloc_props rest (obj_set acc k v) h1
  end.

(** [Object.assign(target, ...sources)] on a target of the store: the own
    enumerable properties of each source, in order, are assigned to the
    target; [undefined] and [null] sources are skipped. *)
Fixpoint assign_keys (target : loc) (source : val) (ks : list string) : M unit :=
  match ks with
  | [] => ret tt
  | k :: rest =>
      let* v := get_prop source k in
      set_prop target k v ;;;
      assign_keys target source rest
  end.

Definition assign_source (target : loc) (source : val) : M unit :=
  match source with
  | VPrim PUndefined | VPrim PNull => ret tt
  | _ => let* ks := Object_keys source in assign_keys target source ks
  end.

Fixpoint Object_assign (target : loc) (sources : list val) : M val :=
  match sources with
  | [] => ret (VRef target)
  | s :: rest => assign_source target s ;;; Object_assign target rest
  end.

(** [cloneDeep] of lodash, by its contract: the result is a copy of the
    structure reachable from the argument that shares no object with it and
    keeps sharing and cycles inside the copy; functions nested in the
    structure are kept as they are and a function at the top becomes an
    empty object.  The copy of cell [l] is laid out at [length h + l]; the
    copies of cells that the argument does not reach are garbage which no
    value refers to. *)
Definition shift_val (n : nat) (v : val) : val :=
  match v with
  | VRef l => VRef (n + l)
  | _ => v
  end.

Definition shift_object (n : nat) (o : object) : object :=
  map (fun kv => (fst kv, shift_val n (snd kv))) o.

Definition cloneDeep (v : val) : M val :=
  match v with
  | VPrim _ => ret v
  | VFun _ | VNoop => alloc []
  | VRef l => fun h => (Ok (VRef (length h + l)), h ++ map (shift_object (length h)) h, [])
  end.

(** ** The collaborators *)

(** A callback registered for [afterInvoke] / [afterAnyInvoke]: awaiting it
    may change the store and either returns or throws. *)
Record hook := {
  hook_id : nat;
  hook_run : heap -> heap * option exn
}.

Record generator := {
  generator_pkg : val
}.

Record Host := {
  env_VUE_CLI_TEST : val;
  env_VUE_CLI_DEBUG : val;
  hasGit : bool;
  hasYarn : bool;
  hasPnpm3OrLater : bool;
  (* ./options; [validatePreset] returns for a preset that fits the schema
     and throws for one that does not *)
  loadOptions : val;
  defaults : val;
  validatePreset : heap -> val -> option exn;
  (* @pkb/shared-utils *)
  loadModule : string -> string -> val;
  execa : heap -> string -> list string -> string -> option exn;
  (* inquirer.prompt: the properties of the answers object, as data *)
  inquirer_prompt : heap -> prompt_arg -> outcome jprops;
  (* ./util/loadRemotePreset: the parsed preset, as data *)
  loadRemotePreset : heap -> val -> val -> outcome jtree;
  (* ./util/ProjectPackageManager *)
  new_PackageManager : heap -> string -> val -> option exn;
  pm_install : heap -> option exn;
  (* ./util/writeFileTree *)
  writeFileTree : heap -> string -> string -> file_content -> option exn;
  (* ./Generator: the constructor may change the store and appends
     callbacks to the two lists it is given *)
  new_Generator : heap -> string -> val -> list plugin ->
                  heap * outcome (generator * list hook * list hook)
}.

(** The fields of a [Creator] instance that the methods read. *)
Record Creator := {
  creator_name : string;
  creator_context : string;
  presetPrompt : val;
  featurePrompt : val;
  injectedPrompts : list val;
  outroPrompts : list val;
  afterInvokeCbs : list hook;
  afterAnyInvokeCbs : list hook
}.

(** ** The methods of [Creator] *)

Section Creator.

Variable host : Host.
Variable this : Creator.

(** A collaborator call that returns nothing. *)
Definition call_host (f : heap -> option exn) (ev : option exn -> event) : M unit :=
  fun h =>
    match f h with
    | None => (Ok tt, h, [ev None])
    | Some e => (Throw e, h, [ev (Some e)])
    end.

(** A collaborator call that returns plain data, allocated on return. *)
Definition call_data (f : heap -> outcome jtree) (ev : option exn -> event) : M val :=
  fun h =>
    match f h with
    | Ok t => let '(v, h1) := alloc_tree t h in (Ok v, h1, [ev None])
    | Throw e => (Throw e, h, [ev (Some e)])
    end.

(** [await inquirer.prompt(arg)] *)
Definition call_prompt (arg : prompt_arg) : M val :=
  call_data (fun h => match inquirer_prompt host h arg with
                      | Ok answers => Ok (TObj answers)
                      | Throw e => Throw e
                      end)
            (EvPrompt arg).

(** run (command, args), lines 161-164 *)
Definition run (command : string) (args : option (list string)) : M unit :=
  let '(command, args) :=
    match args with
    | Some a => (command, a)
    | None =>
        match split_ws command with
        | c :: a => (c, a)
        | [] => ("undefined", [])
        end
    end in
  call_host (fun h => execa host h command args (creator_context this))
            (EvExeca command args (creator_context this)).

(** shouldInitGit (), lines 325-330.  The method declares no parameter:
    whatever the caller passes is ignored. *)
Definition shouldInitGit (arguments : list val) : bool :=
  if negb (hasGit host) then false else true.

(** resolveFinalPrompts (), lines 315-323 *)
Definition resolveFinalPrompts : list val :=
  [presetPrompt this; featurePrompt this] ++ injectedPrompts this ++ outroPrompts this.

(** [name.includes('/')]: defined on strings only. *)
Definition name_includes (name : val) (sub : string) : M bool :=
  match name with
  | VPrim (PStr s) => ret (includes s sub)
  | VPrim PUndefined | VPrim PNull =>
      throw (TypeError "Cannot read properties of undefined or null")
  | _ => throw (TypeError "name.includes is not a function")
  end.

(** resolvePreset (name, clone), lines 179-212 *)
Definition resolvePreset (name clone : val) : M val :=
  let* presets := get_prop (loadOptions host) "presets" in
  let* savedPresets := (if truthy presets then ret presets else alloc []) in
  emit (EvConsoleLog [name; VUndefined; savedPresets]) ;;;
  let* saved := has_property name savedPresets in
  if saved then get_prop savedPresets (to_key name)
  else
    let* remote := name_includes name "/" in
    if remote then
      emit (EvLogWithSpinner (MsgFetching name)) ;;;
      try_catch
        (let* preset := call_data (fun h => loadRemotePreset host h name clone)
                                  (EvLoadRemotePreset name clone) in
         emit EvStopSpinner ;;;
         ret preset)
        (fun e =>
           emit EvStopSpinner ;;;
           emit (EvError (MsgFetchFailed name)) ;;;
           throw e)
    else ret VUndefined.

(** promptAndResolvePreset (answers = null), lines 166-177 *)
Definition promptAndResolvePreset (answers : val) : M val :=
  let* answers :=
    (if negb (truthy answers) then
       emit (EvClearConsole true) ;;;
       call_prompt (PromptFinal resolveFinalPrompts)
     else ret answers) in
  let* name := get_prop answers "preset" in
  let* preset := resolvePreset name VUndefined in
  call_host (fun h => validatePreset host h preset) (EvValidatePreset preset) ;;;
  ret preset.

(** The body of the loop of resolvePlugins, lines 217-227. *)
Definition resolvePlugin (rawPlugins : val) (id : string) : M plugin :=
  let apply := js_or (loadModule host (id +:+ "/generator") (creator_context this)) VNoop in
  let* raw := get_prop rawPlugins id in
  let* options := (if truthy raw then ret raw else alloc []) in
  let* flag := get_prop options "prompts" in
  let* options :=
    (if truthy flag then
       let prompts := loadModule host (id +:+ "/prompts") (creator_context this) in
       if truthy prompts then
         emit (EvLog MsgBlank) ;;;
         let* isPreset := get_prop options "_isPreset" in
         emit (EvLog (MsgPluginTitle (if truthy isPreset then "Preset options:" else id))) ;;;
         call_prompt (PromptModule prompts)
       else ret options
     else ret options) in
  ret {| plugin_id := id; plugin_apply := apply; plugin_options := options |}.

Fixpoint resolvePlugins_loop (rawPlugins : val) (ids : list string) (plugins : list plugin)
  : M (list plugin) :=
  match ids with
  | [] => ret plugins
  | id :: rest =>
      let* p := resolvePlugin rawPlugins id in
      resolvePlugins_loop rawPlugins rest (plugins ++ [p])
  end.

(** resolvePlugins (rawPlugins), lines 214-230 *)
Definition resolvePlugins (rawPlugins : val) : M (list plugin) :=
  let* ids := Object_keys rawPlugins in
  resolvePlugins_loop rawPlugins ids [].

(** getPresets (), lines 232-235 *)
Definition getPresets : M val :=
  let savedOptions := loadOptions host in
  let* target := alloc [] in
  let* saved := get_prop savedOptions "presets" in
  let* builtin := get_prop (defaults host) "presets" in
  match target with
  | VRef l => Object_assign l [saved; builtin]
  | _ => ret target
  end.

(** [await cb()]: the callback is awaited, the action records how it
    completed. *)
Definition call_hook (cb : hook) : M unit :=
  fun h =>
    match hook_run cb h with
    | (h1, None) => (Ok tt, h1, [EvHook (hook_id cb) None])
    | (h1, Some e) => (Throw e, h1, [EvHook (hook_id cb) (Some e)])
    end.

(** [for (const cb of cbs) { await cb() }], lines 121-126; the callbacks do
    not push onto the list that is being drained. *)
Fixpoint run_hooks (cbs : list hook) : M unit :=
  match cbs with
  | [] => ret tt
  | cb :: rest => call_hook cb ;;; run_hooks rest
  end.

(** [new Generator(context, { pkg, plugins, afterInvokeCbs, afterAnyInvokeCbs })] *)
Definition call_new_Generator (pkg : val) (plugins : list plugin)
  : M (generator * list hook * list hook) :=
  fun h =>
    match new_Generator host h (creator_context this) pkg plugins with
    | (h1, Ok g) => (Ok g, h1, [EvNewGenerator (creator_context this) pkg plugins None])
    | (h1, Throw e) => (Throw e, h1, [EvNewGenerator (creator_context this) pkg plugins (Some e)])
    end.

(** The constant [packageManager] of create, lines 64-69. *)
Definition create_packageManager (cliOptions : val) : M val :=
  let* cli := get_prop cliOptions "packageManager" in
  if truthy cli then ret cli
  else
    let* saved := get_prop (loadOptions host) "packageManager" in
    if truthy saved then ret saved
    else
      let yarn := if hasYarn host then VStr "yarn" else VNull in
      if truthy yarn then ret yarn
      else ret (if hasPnpm3OrLater host then VStr "pnpm" else VStr "npm").

(** create (cliOptions = {}, preset = null), lines 54-159 *)
Definition create (cliOptions preset : val) : M unit :=
  let* cliOptions :=
    (match cliOptions with VPrim PUndefined => alloc [] | _ => ret cliOptions end) in
  let preset := match preset with VPrim PUndefined => VNull | _ => preset end in
  let isTestOrDebug := js_or (env_VUE_CLI_TEST host) (env_VUE_CLI_DEBUG host) in
  let name := creator_name this in
  let context := creator_context this in
  let* preset :=
    (if negb (truthy preset) then promptAndResolvePreset VUndefined else ret preset) in
  let* preset := cloneDeep preset in
  let* packageManager := create_packageManager cliOptions in
  call_host (fun h => new_PackageManager host h context packageManager)
            (EvNewPackageManager context packageManager) ;;;
  emit (EvClearConsole false) ;;;
  emit (EvLogWithSpinner (MsgCreating context)) ;;;
  let* devDependencies := alloc [] in
  let* pkg := alloc [("name", VStr name); ("version", VStr "0.1.0");
                     ("private", VBool true); ("devDependencies", devDependencies)] in
  let* rawPlugins := get_prop preset "plugins" in
  let* deps := Object_keys rawPlugins in
  call_host (fun h => writeFileTree host h context "package.json" (JsonManifest name "0.1.0" true))
            (EvWriteFileTree context "package.json" (JsonManifest name "0.1.0" true)) ;;;
  let shouldInitGit := shouldInitGit [cliOptions] in
  (if shouldInitGit then
     emit (EvLogWithSpinner MsgGitInit) ;;;
     emit (EvEmit "creation" "git-init") ;;;
     run "git init" None
   else ret tt) ;;;
  emit EvStopSpinner ;;;
  emit (EvLog MsgInitPlugins) ;;;
  emit (EvLog MsgBlank) ;;;
  emit (EvEmit "creation" "plugins-install") ;;;
  emit (EvLog MsgGenerating) ;;;
  let* rawPlugins := get_prop preset "plugins" in
  let* plugins := resolvePlugins rawPlugins in
  let* g := call_new_Generator pkg plugins in
  let generator := fst (fst g) in
  let afterInvokeCbs := afterInvokeCbs this ++ snd (fst g) in
  let afterAnyInvokeCbs := afterAnyInvokeCbs this ++ snd g in
  emit (EvLog MsgInstallDeps) ;;;
  emit (EvLog MsgBlank) ;;;
  (if negb (truthy isTestOrDebug) then call_host (pm_install host) EvInstall else ret tt) ;;;
  emit (EvLogWithSpinner MsgRunHooks) ;;;
  run_hooks afterInvokeCbs ;;;
  run_hooks afterAnyInvokeCbs ;;;
  emit EvStopSpinner ;;;
  emit (EvLog MsgBlank) ;;;
  emit (EvLogWithSpinner MsgReadme) ;;;
  call_host (fun h => writeFileTree host h context "README.md"
                        (ReadmeOf (generator_pkg generator) packageManager))
            (EvWriteFileTree context "README.md"
                        (ReadmeOf (generator_pkg generator) packageManager)) ;;;
  let* gitCommitFailed :=
    (if shouldInitGit then
       run "git add -A" None ;;;
       try_catch (run "git" (Some ["commit"; "-m"; "init"]) ;;; ret false)
                 (fun e => ret true)
     else ret false) in
  emit EvStopSpinner ;;;
  emit (EvLog MsgBlank) ;;;
  emit (EvLog (MsgSuccess name)) ;;;
  emit (EvLog MsgBlank) ;;;
  (if (gitCommitFailed : bool) then emit (EvWarn MsgCommitSkipped) else ret tt) ;;;
  emit EvPrintExitLogs.

End Creator.

(** ** Runs *)

Definition out {A} (x : outcome A * heap * list event) : outcome A := fst (fst x).
Definition store {A} (x : outcome A * heap * list event) : heap := snd (fst x).
Definition events {A} (x : outcome A * heap * list event) : list event := snd x.

(** *** Kinds of actions *)

(** What the acquisition of the preset can do ([promptAndResolvePreset]),
    what [resolvePreset] alone can do, what [resolvePlugins] can do, and the
    execution of a callback. *)
Definition acquire_event (ev : event) : bool :=
  match ev with
  | EvClearConsole true | EvPrompt (PromptFinal _) _ | EvConsoleLog _
  | EvLogWithSpinner (MsgFetching _) | EvLoadRemotePreset _ _ _
  | EvValidatePreset _ _ | EvStopSpinner | EvError (MsgFetchFailed _) => true
  | _ => false
  end.

Definition resolve_event (ev : event) : bool :=
  match ev with
  | EvConsoleLog _ | EvLogWithSpinner (MsgFetching _) | EvLoadRemotePreset _ _ _
  | EvStopSpinner | EvError (MsgFetchFailed _) => true
  | _ => false
  end.

Definition plugin_event (ev : event) : bool :=
  match ev with
  | EvLog MsgBlank | EvLog (MsgPluginTitle _) | EvPrompt (PromptModule _) _ => true
  | _ => false
  end.

Definition hook_event (ev : event) : bool :=
  match ev with
  | EvHook _ _ => true
  | _ => false
  end.

Definition is_validation (ev : event) : bool :=
  match ev with
  | EvValidatePreset _ _ => true
  | _ => false
  end.

(** Actions that initialise or use the git repository. *)
Definition git_action (ev : event) : bool :=
  match ev with
  | EvEmit _ tag => String.eqb tag "git-init"
  | EvExeca _ _ _ _ => true
  | _ => false
  end.

(** Actions that can change the target directory. *)
Definition mutates_target (ev : event) : bool :=
  match ev with
  | EvWriteFileTree _ _ _ _ | EvExeca _ _ _ _ | EvInstall _
  | EvNewGenerator _ _ _ _ | EvHook _ _ => true
  | _ => false
  end.

Definition all_events (P : event -> bool) (evs : list event) : Prop :=
  Forall (fun ev => P ev = true) evs.

(** The action recorded for a callback that ran to completion. *)
Definition hook_returned (cb : hook) : event := EvHook (hook_id cb) None.

(** *** Predicates on the store *)

(** [v] is a mapping: a reference to an object of the store. *)
Definition is_object (h : heap) (v : val) : Prop :=
  match v with
  | VRef l => is_Some (h !! l)
  | _ => False
  end.

(** [v] refers to the object [o] of the store [h]. *)
Definition object_at (h : heap) (v : val) (o : object) : Prop :=
  exists l, v = VRef l /\ h !! l = Some o.

(** The value of [o[k]]: the own property, else the member inherited from
    [Object.prototype], [undefined] when absent. *)
Definition prop_of (o : object) (k : string) : val := obj_lookup o k.

(** The properties of [source] named by [ks] assigned to [acc], in order. *)
Definition assigned (acc source : object) (ks : list string) : object :=
  fold_left (fun a k => obj_set a k (prop_of source k)) ks acc.

(** The [apply] of a resolved plugin is the export of its generator module,
    or the no-op when [loadModule] gave nothing. *)
Definition apply_loaded (host : Host) (this : Creator) (p : plugin) : Prop :=
  plugin_apply p =
    js_or (loadModule host (plugin_id p +:+ "/generator") (creator_context this)) VNoop.

(** Follows the words of the spec ("not explicitly disabled by the caller's
    options"), for which the source has no counterpart: the options carry
    [git: false]. *)
Definition git_init_disabled (h : heap) (cliOptions : val) : bool :=
  match out (get_prop cliOptions "git" h) with
  | Ok (VPrim (PBool false)) => true
  | _ => false
  end.

(** *** Sharing *)

(** [v] refers to no object allocated before the store had [n] cells. *)
Definition fresh_val (n : nat) (v : val) : Prop :=
  match v with
  | VRef l => n <= l
  | _ => True
  end.









(** The first lines of [create], up to the acquisition of the preset
    (lines 54-60); [create] goes on from the store they leave. *)
Definition create_acquire (host : Host) (this : Creator) (cliOptions preset : val) : M val :=
  bind (match cliOptions with VPrim PUndefined => alloc [] | _ => ret cliOptions end)
       (fun _ =>
          let preset := match preset with VPrim PUndefined => VNull | _ => preset end in
          if negb (truthy preset) then promptAndResolvePreset host this VUndefined
          else ret preset).

(** The options that [create] works with: those of the caller, or the new
    [{}] of the default parameter. *)
Definition options_of (h : heap) (cliOptions : val) : val :=
  match cliOptions with
  | VPrim PUndefined => VRef (length h)
  | _ => cliOptions
  end.

(** What [create] does with the options and the preset it has acquired
    (lines 62-158): [create] is the acquisition followed by this, see
    [create_split]. *)
Definition create_with (host : Host) (this : Creator) (cliOptions preset : val) : M unit :=
  let isTestOrDebug := js_or (env_VUE_CLI_TEST host) (env_VUE_CLI_DEBUG host) in
  let name := creator_name this in
  let context := creator_context this in
  let* preset := cloneDeep preset in
  let* packageManager := create_packageManager host cliOptions in
  call_host (fun h => new_PackageManager host h context packageManager)
            (EvNewPackageManager context packageManager) ;;;
  emit (EvClearConsole false) ;;;
  emit (EvLogWithSpinner (MsgCreating context)) ;;;
  let* devDependencies := alloc [] in
  let* pkg := alloc [("name", VStr name); ("version", VStr "0.1.0");
                     ("private", VBool true); ("devDependencies", devDependencies)] in
  let* rawPlugins := get_prop preset "plugins" in
  let* deps := Object_keys rawPlugins in
  call_host (fun h => writeFileTree host h context "package.json" (JsonManifest name "0.1.0" true))
            (EvWriteFileTree context "package.json" (JsonManifest name "0.1.0" true)) ;;;
  let shouldInitGit := shouldInitGit host [cliOptions] in
  (if shouldInitGit then
     emit (EvLogWithSpinner MsgGitInit) ;;;
     emit (EvEmit "creation" "git-init") ;;;
     run host this "git init" None
   else ret tt) ;;;
  emit EvStopSpinner ;;;
  emit (EvLog MsgInitPlugins) ;;;
  emit (EvLog MsgBlank) ;;;
  emit (EvEmit "creation" "plugins-install") ;;;
  emit (EvLog MsgGenerating) ;;;
  let* rawPlugins := get_prop preset "plugins" in
  let* plugins := resolvePlugins host this rawPlugins in
  let* g := call_new_Generator host this pkg plugins in
  let generator := fst (fst g) in
  let afterInvokeCbs := afterInvokeCbs this ++ snd (fst g) in
  let afterAnyInvokeCbs := afterAnyInvokeCbs this ++ snd g in
  emit (EvLog MsgInstallDeps) ;;;
  emit (EvLog MsgBlank) ;;;
  (if negb (truthy isTestOrDebug) then call_host (pm_install host) EvInstall else ret tt) ;;;
  emit (EvLogWithSpinner MsgRunHooks) ;;;
  run_hooks afterInvokeCbs ;;;
  run_hooks afterAnyInvokeCbs ;;;
  emit EvStopSpinner ;;;
  emit (EvLog MsgBlank) ;;;
  emit (EvLogWithSpinner MsgReadme) ;;;
  call_host (fun h => writeFileTree host h context "README.md"
                        (ReadmeOf (generator_pkg generator) packageManager))
            (EvWriteFileTree context "README.md"
                        (ReadmeOf (generator_pkg generator) packageManager)) ;;;
  let* gitCommitFailed :=
    (if shouldInitGit then
       run host this "git add -A" None ;;;
       try_catch (run host this "git" (Some ["commit"; "-m"; "init"]) ;;; ret false)
                 (fun e => ret true)
     else ret false) in
  emit EvStopSpinner ;;;
  emit (EvLog MsgBlank) ;;;
  emit (EvLog (MsgSuccess name)) ;;;
  emit (EvLog MsgBlank) ;;;
  (if (gitCommitFailed : bool) then emit (EvWarn MsgCommitSkipped) else ret tt) ;;;
  emit EvPrintExitLogs.

(** What a value unfolds to in a store, to a given depth. *)
Local Unset Elimination Schemes.
Local Set Elimination Schemes.



(** ** Sample hosts, instance and stores

    Store: cell 0 is the saved options, whose [presets] (cell 2) hold the
    preset [webpack] (cell 4) with plugins [plugin-a] (options [{}]) and
    [plugin-b] (options [{ prompts: true }]); cell 1 is the [defaults] of
    [./options], whose presets (cell 3) hold another [webpack] (cell 8).
    Only [plugin-a] has a generator module and only [plugin-b] a prompts
    module.  On the sample host git is installed, [git commit] fails for
    want of an identity, the interview picks [webpack] and the generator
    registers two callbacks that return. *)

(** Modelled from the spec: the schema of [validatePreset] in [./options],
    which is not among the sources.  "validate the result against a schema
    (fails with InvalidPreset -- missing/malformed plugins map)": a preset
    fits when it is an object whose [plugins] property is an object, and
    [InvalidPreset] is thrown otherwise. *)
Definition valid_preset (h : heap) (preset : val) : bool :=
  match preset with
  | VRef l =>
      match h !! l with
      | Some o =>
          match obj_get o "plugins" with
          | Some (VRef l') => bool_decide (is_Some (h !! l'))
          | _ => false
          end
      | None => false
      end
  | _ => false
  end.

Definition sample_validatePreset (h : heap) (preset : val) : option exn :=
  if valid_preset h preset then None else Some InvalidPreset.

Definition sample_heap : heap :=
  [ [("presets", VRef 2)];
    [("presets", VRef 3)];
    [("webpack", VRef 4)];
    [("webpack", VRef 8)];
    [("plugins", VRef 5)];
    [("plugin-a", VRef 6); ("plugin-b", VRef 7)];
    [];
    [("prompts", VBool true)];
    [("plugins", VRef 9)];
    [] ].

(** The sample store with two more cells: options of the caller that
    disable git (cell 10) and a preset whose [plugins] is not a mapping
    (cell 11). *)
Definition sample_heap_caller : heap :=
  sample_heap ++ [ [("git", VBool false)]; [("plugins", VBool true)] ].

Definition sample_creator : Creator := {|
  creator_name := "app";
  creator_context := "/tmp/app";
  presetPrompt := VStr "preset";
  featurePrompt := VStr "features";
  injectedPrompts := [];
  outroPrompts := [];
  afterInvokeCbs := [];
  afterAnyInvokeCbs := []
|}.

Definition sample_hook (n : nat) (failed : option exn) : hook :=
  {| hook_id := n; hook_run := fun h => (h, failed) |}.


Definition sample_execa (h : heap) (command : string) (args : list string) (cwd : string)
  : option exn :=
  match args with
  | "commit" :: _ => Some (Failure "Please tell me who you are")
  | _ => None
  end.

Definition sample_prompt (preset : string) (h : heap) (arg : prompt_arg) : outcome jprops :=
  match arg with
  | PromptFinal _ => Ok (TCons "preset" (TPrim (PStr preset)) TNil)
  | PromptModule _ => Ok (TCons "lint" (TPrim (PBool true)) TNil)
  end.

Definition sample_generator (cbs1 cbs2 : list hook)
    (h : heap) (context : string) (pkg : val) (plugins : list plugin)
  : heap * outcome (generator * list hook * list hook) :=
  (h, Ok ({| generator_pkg := pkg |}, cbs1, cbs2)).


Definition make_host (git : bool)
    (execa_ : heap -> string -> list string -> string -> option exn)
    (prompt_ : heap -> prompt_arg -> outcome jprops)
    (generator_ : heap -> string -> val -> list plugin ->
                  heap * outcome (generator * list hook * list hook))
  : Host := {|
  env_VUE_CLI_TEST := VUndefined;
  env_VUE_CLI_DEBUG := VUndefined;
  hasGit := git;
  hasYarn := false;
  hasPnpm3OrLater := true;
  loadOptions := VRef 0;
  defaults := VRef 1;
  validatePreset := sample_validatePreset;
  loadModule := fun request _ =>
    if String.eqb request "plugin-a/generator" then VFun "plugin-a/generator"
    else if String.eqb request "plugin-b/prompts" then VFun "plugin-b/prompts"
    else VUndefined;
  execa := execa_;
  inquirer_prompt := prompt_;
  loadRemotePreset := fun _ _ _ => Throw (Failure "ENOTFOUND");
  new_PackageManager := fun _ _ _ => None;
  pm_install := fun _ => None;
  writeFileTree := fun _ _ _ _ => None;
  new_Generator := generator_
|}.

Definition sample_host : Host :=
  make_host true sample_execa (sample_prompt "webpack")
            (sample_generator [sample_hook 1 None] [sample_hook 2 None]).

(** Without git. *)
Definition sample_host_no_git : Host :=
  make_host false sample_execa (sample_prompt "webpack")
            (sample_generator [sample_hook 1 None] [sample_hook 2 None]).

(** The interview picks a preset name that is not saved. *)
Definition sample_host_unsaved : Host :=
  make_host true sample_execa (sample_prompt "rollup")
            (sample_generator [sample_hook 1 None] [sample_hook 2 None]).


(** The second of three callbacks throws. *)
Definition sample_host_failing_hook : Host :=
  make_host true sample_execa (sample_prompt "webpack")
            (sample_generator
               [sample_hook 1 None; sample_hook 2 (Some (Failure "lint failed"))]
               [sample_hook 3 None]).

(** Every spawned command fails. *)
Definition sample_host_no_spawn : Host :=
  make_host true (fun _ _ _ _ => Some (Failure "spawn git EACCES")) (sample_prompt "webpack")
            (sample_generator [sample_hook 1 None] [sample_hook 2 None]).

(** ** The prompts computed from the host *)

(** The descriptors that [resolveOutroPrompts] builds; they are fresh
    literals that nothing else refers to, kept here as plain records. *)
Record choice := {
  choice_name : string;
  choice_value : string;
  choice_short : string
}.

Record question := {
  question_name : string;
  question_type : string;
  question_message : string;
  question_choices : list choice
}.

(** resolveOutroPrompts (), lines 275-313 *)
Definition resolveOutroPrompts (host : Host) : M (list question) :=
  let outroPrompts := [] in
  let savedOptions := loadOptions host in
  let* saved := get_prop savedOptions "packageManager" in
  if negb (truthy saved) && (hasYarn host || hasPnpm3OrLater host) then
    let packageManagerChoices := [] in
    let packageManagerChoices :=
      if hasYarn host then
        packageManagerChoices ++
          [{| choice_name := "Use Yarn"; choice_value := "yarn"; choice_short := "Yarn" |}]
      else packageManagerChoices in
    let packageManagerChoices :=
      if hasPnpm3OrLater host then
        packageManagerChoices ++
          [{| choice_name := "Use PNPM"; choice_value := "pnpm"; choice_short := "PNPM" |}]
      else packageManagerChoices in
    let packageManagerChoices :=
      packageManagerChoices ++
        [{| choice_name := "Use NPM"; choice_value := "npm"; choice_short := "NPM" |}] in
    ret (outroPrompts ++
           [{| question_name := "packageManager";
               question_type := "list";
               question_message :=
                 "Pick the package manager to use when installing dependencies:";
               question_choices := packageManagerChoices |}])
  else ret outroPrompts.

(** *** More predicates for the statements *)

(** The value of [v.k] in the store [h], [undefined] when the access throws. *)
Definition read_prop (h : heap) (v : val) (k : string) : val :=
  match out (get_prop v k h) with
  | Ok a => a
  | Throw _ => VUndefined
  end.

(** [undefined] or [null]. *)
Definition nullish (v : val) : bool :=
  match v with
  | VPrim PUndefined | VPrim PNull => true
  | _ => false
  end.

(** A primitive of the model: a number is a safe integer. *)
Definition in_model (p : prim) : bool :=
  match p with
  | PNum n => safe_number n
  | _ => true
  end.

(** [v] is not a reference beyond the store. *)
Definition bound_val (h : heap) (v : val) : Prop :=
  match v with
  | VRef l => l < length h
  | _ => True
  end.

(** A plugin for which [resolvePlugins] runs an interview: its options
    carry a truthy [prompts] and its prompts module is found. *)
Definition has_interview (host : Host) (this : Creator) (h : heap) (options : val)
    (id : string) : bool :=
  truthy (read_prop h options "prompts") &&
  truthy (loadModule host (id +:+ "/prompts") (creator_context this)).

(** The options of a resolved entry when no interview ran: the very value
    of the raw mapping when it is truthy, a new empty object otherwise. *)
Definition options_passed (h : heap) (o : object) (h' : heap) (p : plugin) : Prop :=
  if truthy (prop_of o (plugin_id p)) then plugin_options p = prop_of o (plugin_id p)
  else fresh_val (length h) (plugin_options p) /\ object_at h' (plugin_options p) [].

(** A word of a command line: not empty, made of ASCII characters that are
    not white space. *)
Definition word_char (c : ascii) : bool :=
  negb (is_space c) && (nat_of_ascii c <? 128)%nat.

Fixpoint no_space (s : string) : bool :=
  match s with
  | EmptyString => true
  | String c rest => word_char c && no_space rest
  end.

Definition is_word (s : string) : bool :=
  negb (String.eqb s "") && no_space s.

(** A gap of a command line: white space only, at least one character. *)
Fixpoint all_space (s : string) : bool :=
  match s with
  | EmptyString => true
  | String c rest => is_space c && all_space rest
  end.

Definition is_gap (s : string) : bool :=
  negb (String.eqb s "") && all_space s.

(** The command line made of a first word and of further words, each after
    its gap. *)
Definition command_line (w : string) (rest : list (string * string)) : string :=
  w +:+ fold_right (fun p s => fst p +:+ snd p +:+ s) "" rest.

(** The actions of a run that are failures of a collaborator. *)
Definition failure_of (ev : event) : option exn :=
  match ev with
  | EvNewPackageManager _ _ f | EvWriteFileTree _ _ _ f | EvExeca _ _ _ f
  | EvPrompt _ f | EvLoadRemotePreset _ _ f | EvValidatePreset _ f
  | EvNewGenerator _ _ _ f | EvInstall f | EvHook _ f => f
  | _ => None
  end.

(** The failed action [ev] ends the actions [evs]: nothing follows it,
    but for a failed remote fetch, after which the spinner is stopped and
    the failure is reported. *)
Definition ends_run (ev : event) (evs : list event) : Prop :=
  [ev] `suffix_of` evs \/
  exists name clone failed,
    ev = EvLoadRemotePreset name clone failed /\
    [ev; EvStopSpinner; EvError (MsgFetchFailed name)] `suffix_of` evs.

(** The steps by which [create] acquires a preset that was not supplied:
    the interview, the console output and the remote fetch of
    [resolvePreset], the validation. *)
Definition acquisition_step (ev : event) : bool :=
  match ev with
  | EvClearConsole true | EvPrompt (PromptFinal _) _ | EvConsoleLog _
  | EvLogWithSpinner (MsgFetching _) | EvLoadRemotePreset _ _ _
  | EvValidatePreset _ _ | EvError _ => true
  | _ => false
  end.

Definition is_install (ev : event) : bool :=
  match ev with
  | EvInstall _ => true
  | _ => false
  end.


(** *** More sample stores and hosts *)


(** A store with a raw-plugins mapping (cell 0) none of whose options asks
    for an interview: the options of the first plugin are an object (cell
    1), those of the second are [null]. *)
Definition sample_heap_plugins : heap :=
  [ [("plugin-a", VRef 1); ("plugin-c", VNull)];
    [("version", VStr "1.0")] ].

(** The sample host with a given value of [VUE_CLI_TEST] and a given remote
    loader. *)
Definition sample_host_env (test : val)
    (remote : heap -> val -> val -> outcome jtree) : Host := {|
  env_VUE_CLI_TEST := test;
  env_VUE_CLI_DEBUG := env_VUE_CLI_DEBUG sample_host;
  hasGit := hasGit sample_host;
  hasYarn := hasYarn sample_host;
  hasPnpm3OrLater := hasPnpm3OrLater sample_host;
  loadOptions := loadOptions sample_host;
  defaults := defaults sample_host;
  validatePreset := validatePreset sample_host;
  loadModule := loadModule sample_host;
  execa := execa sample_host;
  inquirer_prompt := inquirer_prompt sample_host;
  loadRemotePreset := remote;
  new_PackageManager := new_PackageManager sample_host;
  pm_install := pm_install sample_host;
  writeFileTree := writeFileTree sample_host;
  new_Generator := new_Generator sample_host
|}.

(** Under test. *)
Definition sample_host_test : Host :=
  sample_host_env (VStr "true") (loadRemotePreset sample_host).


Lemma bind_run {A B} (m : M A) (f : A -> M B) h r h' evs :
  bind m f h = (r, h', evs) ->
  (exists e, m h = (Throw e, h', evs) /\ r = Throw e) \/
  (exists a h1 evs1 evs2,
      m h = (Ok a, h1, evs1) /\ f a h1 = (r, h', evs2) /\ evs = evs1 ++ evs2).
Proof.
  unfold bind. destruct (m h) as [[[a|e] h1] evs1].
  - destruct (f a h1) as [[r2 h2] evs2] eqn:Ef. intros H. inversion H; subst.
    right. exists a, h1, evs1, evs2. auto.
  - intros H. inversion H; subst. left. exists e. auto.
Qed.

Lemma try_catch_run {A} (m : M A) (handler : exn -> M A) h r h' evs :
  try_catch m handler h = (r, h', evs) ->
  (exists a, m h = (Ok a, h', evs) /\ r = Ok a) \/
  (exists e h1 evs1 evs2,
      m h = (Throw e, h1, evs1) /\ handler e h1 = (r, h', evs2) /\ evs = evs1 ++ evs2).
Proof.
  unfold try_catch. destruct (m h) as [[[a|e] h1] evs1].
  - intros H. inversion H; subst. left. exists a. auto.
  - destruct (handler e h1) as [[r2 h2] evs2] eqn:Eh. intros H. inversion H; subst.
    right. exists e, h1, evs1, evs2. auto.
Qed.

Lemma ret_run {A} (a : A) h r h' evs :
  ret a h = (r, h', evs) -> r = Ok a /\ h' = h /\ evs = [].
Proof. unfold ret. intros H. inversion H. auto. Qed.

Lemma throw_run {A} (e : exn) h (r : outcome A) h' evs :
  throw e h = (r, h', evs) -> r = Throw e /\ h' = h /\ evs = [].
Proof. unfold throw. intros H. inversion H. auto. Qed.

Lemma emit_run ev h r h' evs :
  emit ev h = (r, h', evs) -> r = Ok tt /\ h' = h /\ evs = [ev].
Proof. unfold emit. intros H. inversion H. auto. Qed.

Lemma alloc_run o h r h' evs :
  alloc o h = (r, h', evs) -> r = Ok (VRef (length h)) /\ h' = h ++ [o] /\ evs = [].
Proof. unfold alloc. intros H. inversion H. auto. Qed.

Lemma get_prop_run v k h r h' evs :
  get_prop v k h = (r, h', evs) -> h' = h /\ evs = [] /\ r = out (get_prop v k h).
Proof.
  intros H. rewrite H. revert H. unfold get_prop.
  destruct v as [[| | | |]| | |]; try destruct (h !! l); intros H; inversion H; auto.
Qed.

Lemma Object_keys_run v h r h' evs :
  Object_keys v h = (r, h', evs) -> h' = h /\ evs = [] /\ r = out (Object_keys v h).
Proof.
  intros H. rewrite H. revert H. unfold Object_keys.
  destruct v as [[| | | |]| | |]; intros H; inversion H; auto.
Qed.

Lemma has_property_run k v h r h' evs :
  has_property k v h = (r, h', evs) -> h' = h /\ evs = [] /\ r = out (has_property k v h).
Proof.
  intros H. rewrite H. revert H. unfold has_property.
  destruct v; try destruct (h !! l); intros H; inversion H; auto.
Qed.

Lemma call_host_run f ev h r h' evs :
  call_host f ev h = (r, h', evs) ->
  h' = h /\
  ((f h = None /\ r = Ok tt /\ evs = [ev None]) \/
   (exists e, f h = Some e /\ r = Throw e /\ evs = [ev (Some e)])).
Proof.
  unfold call_host. destruct (f h) as [e|]; intros H; inversion H; subst; eauto 6.
Qed.

Lemma call_data_run f ev h r h' evs :
  call_data f ev h = (r, h', evs) ->
  (exists t, f h = Ok t /\ r = Ok (fst (alloc_tree t h)) /\
             h' = snd (alloc_tree t h) /\ evs = [ev None]) \/
  (exists e, f h = Throw e /\ r = Throw e /\ h' = h /\ evs = [ev (Some e)]).
Proof.
  unfold call_data. destruct (f h) as [t|e].
  - intros H. left. exists t.
    destruct (alloc_tree t h) as [v h1]. inversion H; subst. auto.
  - intros H. inversion H; subst. right. exists e. auto.
Qed.

Lemma cloneDeep_run v h r h' evs :
  cloneDeep v h = (r, h', evs) -> exists c, r = Ok c /\ evs = [] /\ h `prefix_of` h'.
Proof.
  destruct v; simpl; unfold ret, alloc; intros H; inversion H; subst;
    eexists; (split; [reflexivity|split; [reflexivity|]]);
    first [reflexivity|apply prefix_app_r; reflexivity].
Qed.

(** Symbolic execution of a run [H : m h = (r, h', evs)]: a sequence is cut
    at its first action, whose equation is inverted when the action is a
    primitive of the monad. *)
Ltac invert_outcome :=
  repeat match goal with
         | H : Ok _ = Ok _ |- _ => inversion H; clear H; subst
         | H : Throw _ = Throw _ |- _ => inversion H; clear H; subst
         | H : Ok _ = Throw _ |- _ => discriminate H
         | H : Throw _ = Ok _ |- _ => discriminate H
         end.

Ltac invert_prim H :=
  first
    [ apply ret_run in H; destruct H as (? & ? & ?)
    | apply throw_run in H; destruct H as (? & ? & ?)
    | apply emit_run in H; destruct H as (? & ? & ?)
    | apply alloc_run in H; destruct H as (? & ? & ?)
    | apply get_prop_run in H; destruct H as (? & ? & ?)
    | apply Object_keys_run in H; destruct H as (? & ? & ?)
    | apply has_property_run in H; destruct H as (? & ? & ?)
    | apply call_host_run in H; destruct H as (? & [(? & ? & ?)|(? & ? & ? & ?)])
    | apply call_data_run in H; destruct H as [(? & ? & ? & ? & ?)|(? & ? & ? & ? & ?)]
    | apply cloneDeep_run in H; destruct H as (? & ? & ? & ?) ];
  subst; invert_outcome.

Ltac run_one :=
  match goal with
  | H : bind _ _ _ = (_, _, _) |- _ =>
      apply bind_run in H;
      destruct H as [(? & ? & ?) | (? & ? & ? & ? & ? & ? & ?)]
  | H : try_catch _ _ _ = (_, _, _) |- _ =>
      apply try_catch_run in H;
      destruct H as [(? & ? & ?) | (? & ? & ? & ? & ? & ? & ?)]
  | H : ret _ _ = (_, _, _) |- _ => invert_prim H
  | H : throw _ _ = (_, _, _) |- _ => invert_prim H
  | H : emit _ _ = (_, _, _) |- _ => invert_prim H
  | H : alloc _ _ = (_, _, _) |- _ => invert_prim H
  | H : get_prop _ _ _ = (_, _, _) |- _ => invert_prim H
  | H : Object_keys _ _ = (_, _, _) |- _ => invert_prim H
  | H : has_property _ _ _ = (_, _, _) |- _ => invert_prim H
  | H : call_host _ _ _ = (_, _, _) |- _ => invert_prim H
  | H : call_data _ _ _ = (_, _, _) |- _ => invert_prim H
  | H : cloneDeep _ _ = (_, _, _) |- _ => invert_prim H
  | H : (if ?b then _ else _) _ = (_, _, _) |- _ => destruct b eqn:?
  | H : (match ?v with _ => _ end) _ = (_, _, _) |- _ => destruct v eqn:?
  end; subst; invert_outcome; cbv beta in *; simpl app in *.

Ltac run_all := repeat run_one.

(** Implications between kinds of actions, by cases on the action. *)
Ltac kind_tac :=
  intros;
  match goal with e : event |- _ => destruct e end;
  simpl in *; try congruence;
  repeat (match goal with
          | H : context [match ?x with _ => _ end] |- _ => destruct x
          end; simpl in *; try congruence).

Lemma all_events_nil P : all_events P [].
Proof. constructor. Qed.

Lemma all_events_cons P ev evs :
  P ev = true -> all_events P evs -> all_events P (ev :: evs).
Proof. intros. constructor; assumption. Qed.

Lemma all_events_app P evs1 evs2 :
  all_events P evs1 -> all_events P evs2 -> all_events P (evs1 ++ evs2).
Proof. intros. apply Forall_app. split; assumption. Qed.

Lemma all_events_In P evs ev : all_events P evs -> In ev evs -> P ev = true.
Proof. intros H Hin. unfold all_events in H. rewrite Forall_forall in H.
  apply H. apply list_elem_of_In. exact Hin. Qed.

Lemma all_events_impl (P Q : event -> bool) evs :
  (forall ev, P ev = true -> Q ev = true) -> all_events P evs -> all_events Q evs.
Proof. intros HPQ H. eapply Forall_impl; [exact H|]. exact HPQ. Qed.

Ltac all_events_tac :=
  repeat first
    [ apply all_events_nil
    | apply all_events_cons; [reflexivity|]
    | apply all_events_app
    | assumption ].

(** *** The store only grows under allocation *)

Combined Scheme jtree_jprops_ind from jtree_ind2, jprops_ind2.

Lemma alloc_tree_prefix :
  (forall t h, h `prefix_of` snd (alloc_tree t h)) /\
  (forall ps acc h, h `prefix_of` snd (alloc_props ps acc h)).
Proof.
  apply jtree_jprops_ind; simpl; intros.
  - reflexivity.
  - specialize (H [] h). destruct (alloc_props props [] h) as [o h1]. simpl in *.
    etrans; [exact H|]. apply prefix_app_r. reflexivity.
  - reflexivity.
  - specialize (H h). destruct (alloc_tree t h) as [v h1]. simpl in *.
    etrans; [exact H|]. apply H0.
Qed.

Lemma alloc_tree_object ps h :
  is_object (snd (alloc_tree (TObj ps) h)) (fst (alloc_tree (TObj ps) h)).
Proof.
  simpl. destruct (alloc_props ps [] h) as [o h1]. simpl.
  rewrite lookup_app_r by lia. rewrite Nat.sub_diag. simpl. eauto.
Qed.

Lemma is_object_prefix h h' v :
  is_object h v -> h `prefix_of` h' -> is_object h' v.
Proof.
  destruct v; simpl; try tauto.
  intros [o Ho] Hp. exists o. eapply prefix_lookup_Some; eauto.
Qed.

Lemma prefix_snoc (h : heap) o : h `prefix_of` h ++ [o].
Proof. apply prefix_app_r. reflexivity. Qed.

Lemma get_prop_throws v k h e :
  Throw e = out (get_prop v k h) -> truthy v = false.
Proof.
  unfold get_prop. destruct v as [[| | | |]| | |]; simpl; try discriminate; try reflexivity.
  destruct (h !! l); discriminate.
Qed.

Lemma lookup_snoc_new (h : heap) o : (h ++ [o]) !! length h = Some o.
Proof. rewrite lookup_app_r by lia. rewrite Nat.sub_diag. reflexivity. Qed.

Lemma get_prop_object l o k h :
  h !! l = Some o -> get_prop (VRef l) k h = (Ok (prop_of o k), h, []).
Proof. intros H. unfold get_prop. rewrite H. reflexivity. Qed.

(** *** Object.assign *)


Lemma obj_get_is_key o k : In k (obj_keys o) -> is_Some (obj_get o k).
Proof.
  induction o as [|[k0 v0] o IH]; simpl; [tauto|].
  intros [->|Hin].
  - rewrite String.eqb_refl. eauto.
  - destruct (String.eqb k0 k); [eauto|]. apply IH. exact Hin.
Qed.

Lemma obj_get_keys o k : In k (obj_keys o) -> obj_get o k = Some (prop_of o k).
Proof.
  intros Hin. unfold prop_of, obj_lookup.
  destruct (obj_get_is_key o k Hin) as [v Hv]. rewrite Hv. reflexivity.
Qed.


Lemma assign_keys_run target ls source ks : forall acc (h : heap),
  h !! ls = Some source -> h !! target = Some acc -> target <> ls ->
  exists h',
    assign_keys target (VRef ls) ks h = (Ok tt, h', []) /\
    h' !! target = Some (assigned acc source ks) /\
    length h' = length h /\
    forall j, j <> target -> h' !! j = h !! j.
Proof.
  induction ks as [|k ks IH]; intros acc h Hs Ht Hne; simpl.
  - exists h. unfold ret. auto.
  - unfold bind at 1. rewrite (get_prop_object ls source k h Hs).
    unfold bind at 1. unfold set_prop at 1.
    set (h1 := alter (fun o => obj_set o k (prop_of source k)) target h).
    assert (H1s : h1 !! ls = Some source).
    { unfold h1. rewrite list_lookup_alter_ne by exact Hne. exact Hs. }
    assert (H1t : h1 !! target = Some (obj_set acc k (prop_of source k))).
    { unfold h1. rewrite list_lookup_alter_eq. rewrite Ht. reflexivity. }
    destruct (IH _ h1 H1s H1t Hne) as (h' & Hrun & Hget & Hlen & Hother).
    rewrite Hrun. exists h'. simpl. split; [reflexivity|]. split; [exact Hget|].
    split; [rewrite Hlen; unfold h1; apply length_alter|].
    intros j Hj. rewrite Hother by exact Hj. unfold h1.
    apply list_lookup_alter_ne. congruence.
Qed.

(** *** Evaluation of a sequence whose first action is known *)

Lemma bind_ok {A B} (m : M A) (f : A -> M B) h a h1 evs1 :
  m h = (Ok a, h1, evs1) ->
  bind m f h = (out (f a h1), store (f a h1), evs1 ++ events (f a h1)).
Proof. intros H. unfold bind. rewrite H. destruct (f a h1) as [[r h2] evs2]. reflexivity. Qed.


Lemma obj_get_not_key o k : ~ In k (obj_keys o) -> obj_get o k = None.
Proof.
  induction o as [|[k0 v0] o IH]; simpl; [reflexivity|].
  intros Hn. destruct (String.eqb_spec k0 k) as [->|Hne]; [tauto|]. apply IH. tauto.
Qed.

Lemma has_property_object k l o h :
  h !! l = Some o ->
  has_property k (VRef l) h = (Ok (obj_has o (to_key k)), h, []).
Proof. intros H. unfold has_property. rewrite H. reflexivity. Qed.


Lemma obj_has_none o k :
  ~ In k (obj_keys o) -> inherited k = None -> obj_has o k = false.
Proof.
  intros Hn Hi. unfold obj_has. rewrite (obj_get_not_key o k Hn), Hi. reflexivity.
Qed.



Ltac prefix_tac :=
  repeat match goal with
         | |- ?h `prefix_of` ?h => reflexivity
         | |- _ `prefix_of` _ ++ _ => etrans; [|apply prefix_app_r; reflexivity]
         | |- _ `prefix_of` snd (alloc_tree _ _) => etrans; [|apply alloc_tree_prefix]
         | H : ?a `prefix_of` ?b |- _ `prefix_of` ?b => etrans; [|exact H]
         end.

(** A list of actions ends an explicit list of actions. *)
Ltac suffix_tac :=
  solve [ repeat first [ reflexivity | apply suffix_cons_r | apply suffix_app_r ] ].

Ltac all_events_with tac :=
  repeat first
    [ apply all_events_nil
    | apply all_events_cons; [reflexivity|]
    | apply all_events_app
    | assumption
    | eapply all_events_impl; [|eassumption]; tac ].

(** Search of an action in an explicit list of actions. *)
Ltac find_in :=
  solve [ repeat first [ left; reflexivity | right | apply in_or_app; right; simpl ] ].

(** Case analysis of [H : In ev evs]; the cases that the kinds of actions
    exclude are closed. *)
Ltac in_cases H :=
  simpl in H;
  repeat match type of H with
         | In _ (_ ++ _) => apply in_app_or in H; destruct H as [H|H]; simpl in H
         | _ \/ _ => destruct H as [H|H]
         | False => destruct H
         | _ = _ => discriminate H
         | In _ ?l =>
             match goal with
             | K : all_events _ l |- _ =>
                 apply (all_events_In _ _ _ K) in H; simpl in H; discriminate H
             end
         end.

Lemma kind_resolve_acquire ev : resolve_event ev = true -> acquire_event ev = true.
Proof. kind_tac. Qed.

Section CreatorRuns.

Variable host : Host.
Variable this : Creator.

Lemma resolvePreset_run name clone h r h' evs :
  resolvePreset host name clone h = (r, h', evs) ->
  all_events resolve_event evs /\ h `prefix_of` h'.
Proof.
  intros H. unfold resolvePreset, name_includes in H.
  run_all; (split; [all_events_tac|prefix_tac]).
Qed.

Lemma promptAndResolvePreset_run answers h r h' evs :
  promptAndResolvePreset host this answers h = (r, h', evs) ->
  all_events acquire_event evs /\ h `prefix_of` h' /\
  match r with
  | Ok p => [EvValidatePreset p None] `suffix_of` evs
  | Throw _ => True
  end /\
  forall p e, In (EvValidatePreset p (Some e)) evs -> r = Throw e.
Proof.
  intros H. unfold promptAndResolvePreset, call_prompt in H.
  run_all;
    repeat match goal with
           | R : resolvePreset _ _ _ _ = (_, _, _) |- _ =>
               apply resolvePreset_run in R; destruct R as [? ?]
           end;
    (split; [all_events_with ltac:(exact kind_resolve_acquire)
            |split; [prefix_tac
                    |split; [first [exact I|suffix_tac]
                            |intros p e Hin; in_cases Hin; inversion Hin; reflexivity]]]).
Qed.

Lemma resolvePlugin_run l o id h r h' evs :
  h !! l = Some o ->
  resolvePlugin host this (VRef l) id h = (r, h', evs) ->
  h `prefix_of` h' /\ all_events plugin_event evs /\
  match r with
  | Ok p =>
      plugin_id p = id /\
      plugin_apply p =
        js_or (loadModule host (id +:+ "/generator") (creator_context this)) VNoop /\
      (truthy (prop_of o id) = false \/ is_object h (prop_of o id) ->
       is_object h' (plugin_options p))
  | Throw e =>
      exists schema evs0 hq,
        evs = evs0 ++ [EvPrompt (PromptModule schema) (Some e)] /\
        inquirer_prompt host hq (PromptModule schema) = Throw e
  end.
Proof.
  intros Hl H. unfold resolvePlugin, call_prompt in H.
  run_all;
    repeat match goal with
           | E : _ = out (get_prop (VRef l) _ h) |- _ =>
               rewrite (get_prop_object l o _ h Hl) in E; unfold out in E; simpl in E
           | E : Throw _ = out (get_prop (VRef (length h)) _ (h ++ [_])) |- _ =>
               apply get_prop_throws in E; discriminate E
           | E : Throw _ = out (get_prop ?v _ _), T : truthy ?v = true |- _ =>
               apply get_prop_throws in E; congruence
           | E : match inquirer_prompt ?a ?b ?c with _ => _ end = _ |- _ =>
               destruct (inquirer_prompt a b c) eqn:?; inversion E; clear E; subst
           end;
    invert_outcome; cbv beta iota.
  all: split; [|split; [all_events_tac|]].
  all: try solve [eexists _, [_; _], _; split; [reflexivity|eassumption]].
  all: try solve [ reflexivity | apply prefix_snoc
                 | etrans; [|apply alloc_tree_prefix]; try apply prefix_snoc; reflexivity ].
  all: split; [reflexivity|split; [reflexivity|]]; simpl plugin_options.
  all: try solve [ intros _; apply alloc_tree_object
                 | intros _; simpl; rewrite lookup_snoc_new; eauto
                 | intros [?|?]; [congruence|assumption] ].
Qed.

Lemma resolvePlugins_loop_run l o ids :
  forall acc h r h' evs,
    h !! l = Some o ->
    resolvePlugins_loop host this (VRef l) ids acc h = (r, h', evs) ->
    h `prefix_of` h' /\ all_events plugin_event evs /\
    match r with
    | Ok ps =>
        exists new,
          ps = acc ++ new /\ map plugin_id new = ids /\ Forall (apply_loaded host this) new /\
          ((forall id, In id ids ->
              truthy (prop_of o id) = false \/ is_object h (prop_of o id)) ->
           Forall (fun p => is_object h' (plugin_options p)) new)
    | Throw e =>
        exists schema evs0 hq,
          evs = evs0 ++ [EvPrompt (PromptModule schema) (Some e)] /\
          inquirer_prompt host hq (PromptModule schema) = Throw e
    end.
Proof.
  induction ids as [|id ids IH]; intros acc h r h' evs Hl H; simpl in H.
  - invert_prim H. split; [reflexivity|]. split; [all_events_tac|].
    exists []. rewrite app_nil_r. repeat split; constructor.
  - apply bind_run in H.
    destruct H as [(e & Hp & ->) | (p & h1 & evs1 & evs2 & Hp & H & ->)].
    + apply (resolvePlugin_run l o) in Hp; [|exact Hl].
      destruct Hp as (Hpre & Hev & Hthrow). auto.
    + apply (resolvePlugin_run l o) in Hp; [|exact Hl].
      destruct Hp as (Hpre & Hev & Hid & Happly & Hopt).
      apply IH in H; [|eapply prefix_lookup_Some; eauto].
      destruct H as (Hpre2 & Hev2 & Hr).
      split; [etrans; eauto|]. split; [all_events_tac|].
      destruct r as [ps|e].
      * destruct Hr as (new & -> & Hids & Happ & Hobj).
        exists (p :: new). rewrite <- app_assoc. simpl.
        split; [reflexivity|]. split; [congruence|].
        split; [constructor; [unfold apply_loaded; rewrite Hid; exact Happly|exact Happ]|].
        intros Htyped. constructor.
        -- eapply is_object_prefix; [|exact Hpre2]. apply Hopt. apply Htyped. left. reflexivity.
        -- apply Hobj. intros id' Hin. destruct (Htyped id' (or_intror Hin)) as [?|?]; [left; assumption|].
           right. eapply is_object_prefix; eauto.
      * destruct Hr as (schema & evs0 & hq & -> & Hq).
        exists schema, (evs1 ++ evs0), hq. rewrite app_assoc. auto.
Qed.

Lemma resolvePlugins_run l o h r h' evs :
  h !! l = Some o ->
  resolvePlugins host this (VRef l) h = (r, h', evs) ->
  h `prefix_of` h' /\ all_events plugin_event evs /\
  match r with
  | Ok ps =>
      map plugin_id ps = obj_keys o /\ Forall (apply_loaded host this) ps /\
      ((forall id, In id (obj_keys o) ->
          truthy (prop_of o id) = false \/ is_object h (prop_of o id)) ->
       Forall (fun p => is_object h' (plugin_options p)) ps)
  | Throw e =>
      exists schema evs0 hq,
        evs = evs0 ++ [EvPrompt (PromptModule schema) (Some e)] /\
        inquirer_prompt host hq (PromptModule schema) = Throw e
  end.
Proof.
  intros Hl H. unfold resolvePlugins in H.
  apply bind_run in H.
  destruct H as [(e & Hk & ->) | (ids & h1 & evs1 & evs2 & Hk & H & ->)].
  - unfold Object_keys in Hk. discriminate Hk.
  - unfold Object_keys, own_keys in Hk. rewrite Hl in Hk. inversion Hk; subst. clear Hk.
    apply (resolvePlugins_loop_run l o) in H; [|exact Hl].
    destruct H as (Hpre & Hev & Hr). simpl.
    split; [exact Hpre|]. split; [exact Hev|].
    destruct r as [ps|e]; [|exact Hr].
    destruct Hr as (new & -> & Hids & Happ & Hobj). simpl.
    split; [exact Hids|]. split; [exact Happ|].
    exact Hobj.
Qed.


Lemma resolvePlugin_events raw id h r h' evs :
  resolvePlugin host this raw id h = (r, h', evs) ->
  all_events plugin_event evs /\ h `prefix_of` h'.
Proof.
  intros H. unfold resolvePlugin, call_prompt in H.
  run_all; (split; [all_events_tac|prefix_tac]).
Qed.

Lemma resolvePlugins_loop_events raw ids :
  forall acc h r h' evs,
    resolvePlugins_loop host this raw ids acc h = (r, h', evs) ->
    all_events plugin_event evs /\ h `prefix_of` h'.
Proof.
  induction ids as [|id ids IH]; intros acc h r h' evs H; simpl in H.
  - invert_prim H. split; [all_events_tac|reflexivity].
  - apply bind_run in H.
    destruct H as [(e & Hp & ->) | (p & h1 & evs1 & evs2 & Hp & H & ->)];
      apply resolvePlugin_events in Hp; destruct Hp as [? ?]; [auto|].
    apply IH in H. destruct H as [? ?].
    split; [all_events_tac|etrans; eauto].
Qed.

Lemma resolvePlugins_events raw h r h' evs :
  resolvePlugins host this raw h = (r, h', evs) ->
  all_events plugin_event evs /\ h `prefix_of` h'.
Proof.
  intros H. unfold resolvePlugins in H.
  apply bind_run in H.
  destruct H as [(e & Hk & ->) | (ids & h1 & evs1 & evs2 & Hk & H & ->)];
    invert_prim Hk.
  - split; [all_events_tac|reflexivity].
  - simpl. eapply resolvePlugins_loop_events; eauto.
Qed.

Lemma call_hook_run cb h r h' evs :
  call_hook cb h = (r, h', evs) ->
  h' = fst (hook_run cb h) /\
  ((r = Ok tt /\ evs = [hook_returned cb]) \/
   (exists e, r = Throw e /\ evs = [EvHook (hook_id cb) (Some e)])).
Proof.
  unfold call_hook. destruct (hook_run cb h) as [h1 [e|]]; intros H; inversion H; subst;
    (split; [reflexivity|]); eauto.
Qed.

Lemma run_hooks_run cbs :
  forall h r h' evs,
    run_hooks cbs h = (r, h', evs) ->
    (r = Ok tt /\ evs = map hook_returned cbs) \/
    (exists k cb e,
        cbs !! k = Some cb /\ r = Throw e /\
        evs = map hook_returned (take k cbs) ++ [EvHook (hook_id cb) (Some e)]).
Proof.
  induction cbs as [|cb cbs IH]; intros h r h' evs H; simpl in H.
  - invert_prim H. left. auto.
  - apply bind_run in H.
    destruct H as [(e & Hc & ->) | ([] & h1 & evs1 & evs2 & Hc & H & ->)];
      apply call_hook_run in Hc; destruct Hc as (_ & [(Hr & ->)|(e' & Hr & ->)]);
      try discriminate Hr.
    + inversion Hr; subst. right. exists 0, cb, e'. auto.
    + apply IH in H. destruct H as [(-> & ->)|(k & cb' & e & Hk & -> & ->)].
      * left. auto.
      * right. exists (S k), cb', e. auto.
Qed.

Lemma run_hooks_events cbs h :
  all_events hook_event (events (run_hooks cbs h)).
Proof.
  destruct (run_hooks cbs h) as [[r h'] evs] eqn:H. simpl.
  apply run_hooks_run in H.
  destruct H as [(_ & ->)|(k & cb & e & _ & _ & ->)].
  - induction cbs; simpl; all_events_tac.
  - apply all_events_app; [|all_events_tac].
    generalize (take k cbs). intros l. induction l; simpl; all_events_tac.
Qed.

Lemma call_new_Generator_run pkg plugins h r h' evs :
  call_new_Generator host this pkg plugins h = (r, h', evs) ->
  h' = fst (new_Generator host h (creator_context this) pkg plugins) /\
  r = snd (new_Generator host h (creator_context this) pkg plugins) /\
  exists failed, evs = [EvNewGenerator (creator_context this) pkg plugins failed] /\
                 match r with Ok _ => failed = None | Throw e => failed = Some e end.
Proof.
  unfold call_new_Generator.
  destruct (new_Generator host h (creator_context this) pkg plugins) as [h1 [g|e]];
    intros H; inversion H; subst; simpl; eauto.
Qed.

Lemma create_packageManager_run cliOptions h r h' evs :
  create_packageManager host cliOptions h = (r, h', evs) -> h' = h /\ evs = [].
Proof.
  intros H. unfold create_packageManager in H. run_all; auto.
Qed.

Lemma run_git_init :
  run host this "git init" None =
    call_host (fun h => execa host h "git" ["init"] (creator_context this))
              (EvExeca "git" ["init"] (creator_context this)).
Proof. reflexivity. Qed.

Lemma run_git_add :
  run host this "git add -A" None =
    call_host (fun h => execa host h "git" ["add"; "-A"] (creator_context this))
              (EvExeca "git" ["add"; "-A"] (creator_context this)).
Proof. reflexivity. Qed.

Lemma run_git_commit :
  run host this "git" (Some ["commit"; "-m"; "init"]) =
    call_host (fun h => execa host h "git" ["commit"; "-m"; "init"] (creator_context this))
              (EvExeca "git" ["commit"; "-m"; "init"] (creator_context this)).
Proof. reflexivity. Qed.

End CreatorRuns.

(** *** Runs of [create] *)

Lemma cliOptions_default_run (cliOptions : val) h r h' evs :
  (match cliOptions with VPrim PUndefined => alloc [] | _ => ret cliOptions end) h
    = (r, h', evs) ->
  evs = [] /\ h `prefix_of` h' /\ exists c, r = Ok c.
Proof.
  destruct cliOptions as [[| | | |]| | |]; intros H; invert_prim H;
    (split; [reflexivity|split; [prefix_tac|eauto]]).
Qed.

Lemma run_hooks_kind cbs h r h' evs :
  run_hooks cbs h = (r, h', evs) -> all_events hook_event evs.
Proof. intros H. pose proof (run_hooks_events cbs h) as E. rewrite H in E. exact E. Qed.

(** The sub-runs of [create] are replaced by what is known of their actions. *)
Ltac sub_runs :=
  repeat match goal with
         | H : promptAndResolvePreset _ _ _ _ = (_, _, _) |- _ =>
             apply promptAndResolvePreset_run in H; destruct H as (? & ? & ? & ?)
         | H : create_packageManager _ _ _ = (_, _, _) |- _ =>
             apply create_packageManager_run in H; destruct H as (? & ?); subst
         | H : resolvePlugins _ _ _ _ = (_, _, _) |- _ =>
             apply resolvePlugins_events in H; destruct H as (? & ?)
         | H : run_hooks _ _ = (_, _, _) |- _ =>
             apply run_hooks_kind in H
         | H : call_new_Generator _ _ _ _ _ = (_, _, _) |- _ =>
             apply call_new_Generator_run in H; destruct H as (? & ? & ? & ? & ?); subst
         end.

Ltac create_start H :=
  unfold create in H;
  rewrite ?run_git_init, ?run_git_add, ?run_git_commit in H;
  let Hc := fresh "Hcli" in
  apply bind_run in H;
  destruct H as [(? & Hc & ?) | (? & ? & ? & ? & Hc & H & ?)];
  apply cliOptions_default_run in Hc; destruct Hc as (? & ? & ? & ?); subst;
  invert_outcome; simpl app in *.

Lemma kind_acquire_not_git ev : acquire_event ev = true -> negb (git_action ev) = true.
Proof. kind_tac. Qed.

Lemma kind_plugin_not_git ev : plugin_event ev = true -> negb (git_action ev) = true.
Proof. kind_tac. Qed.

Lemma kind_hook_not_git ev : hook_event ev = true -> negb (git_action ev) = true.
Proof. destruct ev; simpl; congruence. Qed.

Ltac not_git_kinds :=
  first [ exact kind_acquire_not_git | exact kind_plugin_not_git | exact kind_hook_not_git ].


Lemma kind_acquire_not_mutation ev :
  acquire_event ev = true -> negb (mutates_target ev) = true.
Proof. kind_tac. Qed.


(** *** The hook phase *)

Lemma filter_hooks_none (P : event -> bool) evs :
  (forall ev, P ev = true -> hook_event ev = false) ->
  all_events P evs -> List.filter hook_event evs = [].
Proof.
  intros HP H. induction H as [|ev evs Hev _ IH]; simpl; [reflexivity|].
  rewrite (HP ev Hev). exact IH.
Qed.

Lemma filter_hooks_acquire evs :
  all_events acquire_event evs -> List.filter hook_event evs = [].
Proof.
  apply filter_hooks_none.
  kind_tac.
Qed.

Lemma filter_hooks_plugin evs :
  all_events plugin_event evs -> List.filter hook_event evs = [].
Proof.
  apply filter_hooks_none.
  kind_tac.
Qed.

Lemma filter_hooks_returned cbs :
  List.filter hook_event (map hook_returned cbs) = map hook_returned cbs.
Proof. induction cbs as [|cb cbs IH]; simpl; [reflexivity|]. rewrite IH. reflexivity. Qed.

Lemma run_hooks_ok cbs h u h' evs :
  run_hooks cbs h = (Ok u, h', evs) -> evs = map hook_returned cbs.
Proof.
  intros H. apply run_hooks_run in H.
  destruct H as [(_ & ->)|(k & cb & e & _ & Hr & _)]; [reflexivity|discriminate Hr].
Qed.

Lemma run_hooks_throw cbs h e h' evs :
  run_hooks cbs h = (Throw e, h', evs) ->
  exists k cb,
    cbs !! k = Some cb /\
    evs = map hook_returned (take k cbs) ++ [EvHook (hook_id cb) (Some e)].
Proof.
  intros H. apply run_hooks_run in H.
  destruct H as [(Hr & _)|(k & cb & e' & Hk & Hr & ->)]; [discriminate Hr|].
  inversion Hr; subst. eauto.
Qed.

Lemma hooks_first_throws (A B : list hook) k cb :
  A !! k = Some cb ->
  (A ++ B) !! k = Some cb /\ take k (A ++ B) = take k A.
Proof.
  intros Hk. pose proof (lookup_lt_Some _ _ _ Hk) as Hlt. split.
  - rewrite lookup_app_l by exact Hlt. exact Hk.
  - rewrite take_app_le by lia. reflexivity.
Qed.

Lemma hooks_second_throws (A B : list hook) k cb :
  B !! k = Some cb ->
  (A ++ B) !! (length A + k) = Some cb /\
  map hook_returned (take (length A + k) (A ++ B)) =
    map hook_returned A ++ map hook_returned (take k B).
Proof.
  intros Hk. split.
  - rewrite lookup_app_r by lia.
    replace (length A + k - length A) with k by lia. exact Hk.
  - rewrite take_app_add. rewrite map_app. reflexivity.
Qed.

Ltac hooks_runs :=
  repeat match goal with
         | H : run_hooks _ _ = (Ok _, _, _) |- _ => apply run_hooks_ok in H; subst
         | H : run_hooks _ _ = (Throw _, _, _) |- _ =>
             apply run_hooks_throw in H; destruct H as (? & ? & ? & ?); subst
         end.

Ltac filter_hooks :=
  repeat first
    [ rewrite List.filter_app
    | progress simpl List.filter
    | rewrite filter_hooks_returned
    | rewrite filter_hooks_acquire by assumption
    | rewrite filter_hooks_plugin by assumption ];
  rewrite ?app_nil_r; simpl app.

(** *** Sharing: what [create] hands over is fresh *)










(** *** Invariants of the store along a run *)























(** *** Validation comes first *)

Lemma app_split_after {A} (l1 l2 pre : list A) x post :
  l1 ++ l2 = pre ++ x :: post -> ~ In x l1 -> exists k, pre = l1 ++ k.
Proof.
  revert pre. induction l1 as [|a l1 IH]; intros pre Heq Hnin.
  - exists pre. reflexivity.
  - destruct pre as [|b pre]; simpl in Heq; inversion Heq; subst.
    + exfalso. apply Hnin. left. reflexivity.
    + destruct (IH pre H1) as [k ->]; [intros Hin; apply Hnin; right; exact Hin|].
      exists k. reflexivity.
Qed.

Lemma no_mutation_in_acquire evs pre ev post :
  all_events acquire_event evs -> evs = pre ++ ev :: post ->
  mutates_target ev = true -> False.
Proof.
  intros Hk -> Hmut.
  assert (Hin : In ev (pre ++ ev :: post)) by (apply in_or_app; right; left; reflexivity).
  apply (all_events_In _ _ _ Hk) in Hin.
  apply kind_acquire_not_mutation in Hin. rewrite Hmut in Hin. discriminate Hin.
Qed.

Lemma validated_before evsA rest p pre ev post :
  [EvValidatePreset p None] `suffix_of` evsA ->
  all_events acquire_event evsA ->
  evsA ++ rest = pre ++ ev :: post ->
  mutates_target ev = true ->
  In (EvValidatePreset p None) pre.
Proof.
  intros [k ->] Hk Heq Hmut.
  destruct (app_split_after _ _ _ _ _ Heq) as [k' ->].
  - intros Hin. apply (all_events_In _ _ _ Hk) in Hin.
    apply kind_acquire_not_mutation in Hin. rewrite Hmut in Hin. discriminate Hin.
  - apply in_or_app. left. apply in_or_app. right. left. reflexivity.
Qed.

Lemma truthy_default_preset preset :
  truthy preset = false ->
  truthy (match preset with VPrim PUndefined => VNull | _ => preset end) = false.
Proof. destruct preset as [[| | | |]| | |]; simpl; congruence. Qed.

(** *** The package manager *)

Lemma object_at_prefix h h' v o :
  object_at h v o -> h `prefix_of` h' -> object_at h' v o.
Proof.
  intros (l & -> & Hl) Hp. exists l. split; [reflexivity|].
  eapply prefix_lookup_Some; eauto.
Qed.

Lemma create_packageManager_value host cliOptions (h : heap) ocli oo :
  object_at h cliOptions ocli ->
  object_at h (loadOptions host) oo ->
  create_packageManager host cliOptions h =
    (Ok (if truthy (prop_of ocli "packageManager") then prop_of ocli "packageManager"
         else if truthy (prop_of oo "packageManager") then prop_of oo "packageManager"
         else if hasYarn host then VStr "yarn"
         else if hasPnpm3OrLater host then VStr "pnpm"
         else VStr "npm"),
     h, []).
Proof.
  intros (lc & -> & Hc) (lo & Hlo & Ho).
  unfold create_packageManager. rewrite Hlo.
  unfold bind, ret. rewrite (get_prop_object lc ocli _ h Hc).
  destruct (truthy (prop_of ocli "packageManager")); [reflexivity|].
  rewrite (get_prop_object lo oo _ h Ho).
  destruct (truthy (prop_of oo "packageManager")); [reflexivity|].
  destruct (hasYarn host); reflexivity.
Qed.

(** *** What the entries of [resolvePlugins] carry *)






(** *** The acquisition of the preset and what follows it *)

Lemma create_split (host : Host) (this : Creator) (cliOptions preset : val) :
  create host this cliOptions preset =
  (let* c := (match cliOptions with VPrim PUndefined => alloc [] | _ => ret cliOptions end) in
   let* p :=
     (if negb (truthy (match preset with VPrim PUndefined => VNull | _ => preset end))
      then promptAndResolvePreset host this VUndefined
      else ret (match preset with VPrim PUndefined => VNull | _ => preset end)) in
   create_with host this c p).
Proof. reflexivity. Qed.

Lemma create_after_acquire (host : Host) (this : Creator) (cliOptions preset : val) h :
  create host this cliOptions preset h =
    match out (create_acquire host this cliOptions preset h) with
    | Ok p =>
        (out (create_with host this (options_of h cliOptions) p
                (store (create_acquire host this cliOptions preset h))),
         store (create_with host this (options_of h cliOptions) p
                  (store (create_acquire host this cliOptions preset h))),
         events (create_acquire host this cliOptions preset h) ++
         events (create_with host this (options_of h cliOptions) p
                   (store (create_acquire host this cliOptions preset h))))
    | Throw e =>
        (Throw e, store (create_acquire host this cliOptions preset h),
         events (create_acquire host this cliOptions preset h))
    end.
Proof.
  rewrite create_split. unfold create_acquire, options_of, bind.
  destruct cliOptions as [[| | | |]| | |]; unfold alloc, ret; cbv beta iota;
    match goal with
    | |- context [(if ?b then ?m1 else ?m2) ?h0] =>
        destruct ((if b then m1 else m2) h0) as [[[p|e] h1] evs1]
    end;
    unfold out, store, events; simpl;
    try reflexivity;
    match goal with
    | |- context [create_with ?a ?b ?c ?d ?e] =>
        destruct (create_with a b c d e) as [[r2 h2] evs2]
    end; reflexivity.
Qed.

Lemma promptAndResolvePreset_result (host : Host) (this : Creator) answers h p h' evs :
  promptAndResolvePreset host this answers h = (Ok p, h', evs) ->
  exists name hq, out (resolvePreset host name VUndefined hq) = Ok p.
Proof.
  intros H. unfold promptAndResolvePreset, call_prompt in H.
  run_all;
    match goal with
    | R : resolvePreset _ ?name VUndefined ?hq = (Ok ?v, _, _) |- _ =>
        exists name, hq; rewrite R; reflexivity
    end.
Qed.

Lemma create_acquire_run (host : Host) (this : Creator) (cliOptions preset : val) h :
  truthy preset = false ->
  all_events acquire_event (events (create_acquire host this cliOptions preset h)) /\
  (forall p,
     out (create_acquire host this cliOptions preset h) = Ok p ->
     [EvValidatePreset p None] `suffix_of`
       events (create_acquire host this cliOptions preset h) /\
     exists name hq, out (resolvePreset host name VUndefined hq) = Ok p) /\
  (forall p e,
     In (EvValidatePreset p (Some e)) (events (create_acquire host this cliOptions preset h)) ->
     out (create_acquire host this cliOptions preset h) = Throw e).
Proof.
  intros Hp. apply truthy_default_preset in Hp.
  destruct (create_acquire host this cliOptions preset h) as [[r h'] evs] eqn:H.
  unfold out, events. simpl. unfold create_acquire in H.
  apply bind_run in H.
  destruct H as [(? & Hc & ?) | (? & ? & ? & ? & Hc & H & ?)];
    apply cliOptions_default_run in Hc; destruct Hc as (? & ? & ? & ?); subst;
    invert_outcome; simpl app in *.
  rewrite Hp in H. simpl negb in H. cbv iota in H.
  pose proof (promptAndResolvePreset_run host this _ _ _ _ _ H) as (Hk & _ & Hs & Hv).
  split; [exact Hk|]. split; [|exact Hv].
  intros p ->. split; [exact Hs|].
  eapply promptAndResolvePreset_result. exact H.
Qed.

Lemma kind_plugin_not_validation ev :
  plugin_event ev = true -> negb (is_validation ev) = true.
Proof. kind_tac. Qed.

Lemma kind_hook_not_validation ev :
  hook_event ev = true -> negb (is_validation ev) = true.
Proof. kind_tac. Qed.

Lemma create_with_no_validation (host : Host) (this : Creator) (c p : val) h :
  all_events (fun ev => negb (is_validation ev)) (events (create_with host this c p h)).
Proof.
  destruct (create_with host this c p h) as [[r h'] evs] eqn:H.
  unfold events. simpl. unfold create_with in H.
  rewrite ?run_git_init, ?run_git_add, ?run_git_commit in H.
  run_all; sub_runs;
    all_events_with ltac:(first [ exact kind_plugin_not_validation
                                | exact kind_hook_not_validation ]).
Qed.

(** *** Names that [in] finds along the prototype chain *)


Lemma truthy_supplied_value preset :
  truthy preset = true ->
  truthy (match preset with VPrim PUndefined => VNull | _ => preset end) = true.
Proof. destruct preset as [[| | | |]| | |]; simpl; congruence. Qed.

(** ** Plugin resolution *)




(** C2. A plugin whose generator module cannot be loaded ([loadModule] gives
    nothing) does not make [resolvePlugins] throw: when every interview is
    answered the call returns, and the entry of that plugin has the no-op as
    its [apply]. *)
Theorem resolvePlugins_missing_generator_noop (host : Host) (this : Creator) l o (h : heap) :
  h !! l = Some o ->
  (forall hq arg e, inquirer_prompt host hq arg <> Throw e) ->
  exists plugins,
    out (resolvePlugins host this (VRef l) h) = Ok plugins /\
    forall i id,
      obj_keys o !! i = Some id ->
      truthy (loadModule host (id +:+ "/generator") (creator_context this)) = false ->
      exists p, plugins !! i = Some p /\ plugin_id p = id /\ plugin_apply p = VNoop.
Proof.
  intros Hl Hanswered.
  pose proof (resolvePlugins_run host this l o h) as H.
  destruct (resolvePlugins host this (VRef l) h) as [[r h'] evs].
  specialize (H r h' evs Hl eq_refl). destruct H as (_ & _ & H).
  unfold out. simpl. destruct r as [ps|e].
  - destruct H as (Hids & Happ & _). exists ps. split; [reflexivity|].
    intros i id Hi Hmissing. rewrite <- Hids in Hi.
    rewrite list_lookup_fmap in Hi.
    destruct (ps !! i) as [p|] eqn:Hp; [|discriminate Hi].
    simpl in Hi. inversion Hi; subst. exists p. split; [reflexivity|]. split; [reflexivity|].
    rewrite Forall_forall in Happ.
    assert (Hin : p ∈ ps) by (eapply list_elem_of_lookup_2; eauto).
    specialize (Happ p Hin). unfold apply_loaded in Happ. rewrite Happ.
    unfold js_or. rewrite Hmissing. reflexivity.
  - destruct H as (schema & evs0 & hq & _ & Hq). exfalso. eapply Hanswered; eauto.
Qed.

Lemma resolvePlugins_missing_generator_noop_witness :
  exists plugins,
    out (resolvePlugins sample_host sample_creator (VRef 5) sample_heap) = Ok plugins /\
    forall i id,
      [("plugin-a" : string); "plugin-b"] !! i = Some id ->
      truthy (loadModule sample_host (id +:+ "/generator") "/tmp/app") = false ->
      exists p, plugins !! i = Some p /\ plugin_id p = id /\ plugin_apply p = VNoop.
Proof.
  apply (resolvePlugins_missing_generator_noop sample_host sample_creator 5
           [("plugin-a", VRef 6); ("plugin-b", VRef 7)] sample_heap).
  - reflexivity.
  - intros hq [ps|schema] e; discriminate.
Defined.

(** ** Presets *)






(** ** The workflow of [create] *)

(** C5. The package manager of [create] is the command-line option when it
    is given, else the saved [packageManager], else ['yarn'] when Yarn is
    detected, else ['pnpm'] when a PNPM of version 3 or later is detected,
    else ['npm'].  Computing it leaves the store unchanged and performs no
    action, and it is the value that every run of [create] hands to the
    package manager and to the README. *)
Theorem create_packageManager_precedence (host : Host) (this : Creator)
    (cliOptions preset : val) (h : heap) ocli oo :
  object_at h cliOptions ocli ->
  object_at h (loadOptions host) oo ->
  let chosen :=
    if truthy (prop_of ocli "packageManager") then prop_of ocli "packageManager"
    else if truthy (prop_of oo "packageManager") then prop_of oo "packageManager"
    else if hasYarn host then VStr "yarn"
    else if hasPnpm3OrLater host then VStr "pnpm"
    else VStr "npm" in
  create_packageManager host cliOptions h = (Ok chosen, h, []) /\
  (forall context packageManager failed,
     In (EvNewPackageManager context packageManager failed)
        (events (create host this cliOptions preset h)) ->
     packageManager = chosen) /\
  (forall context pkg packageManager failed,
     In (EvWriteFileTree context "README.md" (ReadmeOf pkg packageManager) failed)
        (events (create host this cliOptions preset h)) ->
     packageManager = chosen).
Proof.
  intros Hcli Hopts chosen.
  split; [apply create_packageManager_value; assumption|].
  destruct (create host this cliOptions preset h) as [[r h'] evs] eqn:H.
  unfold events. simpl.
  assert (Hc : exists lc, cliOptions = VRef lc) by (destruct Hcli as (lc & -> & _); eauto).
  destruct Hc as [lc ->].
  unfold create in H. rewrite ?run_git_init, ?run_git_add, ?run_git_commit in H.
  run_all;
    repeat match goal with
           | Hpm : create_packageManager _ (VRef lc) ?hq = (_, _, _) |- _ =>
               let E := fresh "E" in
               assert (E : h `prefix_of` hq) by (sub_runs; prefix_tac);
               rewrite (create_packageManager_value host (VRef lc) hq ocli oo
                          (object_at_prefix _ _ _ _ Hcli E)
                          (object_at_prefix _ _ _ _ Hopts E)) in Hpm;
               inversion Hpm; subst; clear Hpm
           end;
    sub_runs; split.
  all: try (intros context packageManager failed Hin; in_cases Hin;
            inversion Hin; reflexivity).
  all: intros context pkg packageManager failed Hin; in_cases Hin;
       inversion Hin; reflexivity.
Qed.

Lemma create_packageManager_precedence_witness :
  create_packageManager sample_host (VRef 6) sample_heap =
    (Ok (VStr "pnpm"), sample_heap, []) /\
  (forall context packageManager failed,
     In (EvNewPackageManager context packageManager failed)
        (events (create sample_host sample_creator (VRef 6) VUndefined sample_heap)) ->
     packageManager = VStr "pnpm") /\
  (forall context pkg packageManager failed,
     In (EvWriteFileTree context "README.md" (ReadmeOf pkg packageManager) failed)
        (events (create sample_host sample_creator (VRef 6) VUndefined sample_heap)) ->
     packageManager = VStr "pnpm").
Proof.
  apply (create_packageManager_precedence sample_host sample_creator (VRef 6) VUndefined
           sample_heap [] [("presets", VRef 2)]).
  - exists 6. split; reflexivity.
  - exists 0. split; reflexivity.
Defined.

(** C8, as the code has it.  [create] initialises a git repository exactly
    when git is detected on the host: the options of the caller are not
    consulted.  Without git, no ['creation'] event tagged ['git-init'] is
    emitted and no process (git init, add, commit) is spawned; with git,
    every run that has written the manifest emits the event and spawns
    [git init]. *)
Theorem create_git_init_iff_hasGit (host : Host) (this : Creator) (cliOptions preset : val)
    (h : heap) :
  shouldInitGit host [cliOptions] = hasGit host /\
  (hasGit host = false ->
     all_events (fun ev => negb (git_action ev))
                (events (create host this cliOptions preset h))) /\
  (hasGit host = true ->
     In (EvWriteFileTree (creator_context this) "package.json"
           (JsonManifest (creator_name this) "0.1.0" true) None)
        (events (create host this cliOptions preset h)) ->
     In (EvEmit "creation" "git-init") (events (create host this cliOptions preset h)) /\
     exists failed,
       In (EvExeca "git" ["init"] (creator_context this) failed)
          (events (create host this cliOptions preset h))).
Proof.
  split; [unfold shouldInitGit; destruct (hasGit host); reflexivity|].
  destruct (create host this cliOptions preset h) as [[r h'] evs] eqn:H.
  unfold events. simpl. split.
  - intros Hgit. create_start H.
    unfold shouldInitGit in H. rewrite Hgit in H. simpl negb in H. cbv iota in H.
    run_all; sub_runs; all_events_with not_git_kinds.
  - intros Hgit Hin. create_start H.
    unfold shouldInitGit in H. rewrite Hgit in H. simpl negb in H. cbv iota in H.
    run_all; sub_runs;
      first [ split; [find_in|eexists; find_in] | exfalso; in_cases Hin ].
Qed.

Lemma create_git_init_iff_hasGit_witness :
  all_events (fun ev => negb (git_action ev))
    (events (create sample_host_no_git sample_creator VUndefined VUndefined sample_heap)) /\
  (In (EvEmit "creation" "git-init")
      (events (create sample_host sample_creator VUndefined VUndefined sample_heap)) /\
   exists failed,
     In (EvExeca "git" ["init"] "/tmp/app" failed)
        (events (create sample_host sample_creator VUndefined VUndefined sample_heap))).
Proof.
  split.
  - refine (proj1 (proj2 (create_git_init_iff_hasGit sample_host_no_git sample_creator
                            VUndefined VUndefined sample_heap)) _).
    reflexivity.
  - refine (proj2 (proj2 (create_git_init_iff_hasGit sample_host sample_creator
                            VUndefined VUndefined sample_heap)) _ _).
    + reflexivity.
    + vm_compute. find_in.
Defined.

(** C8, as the spec words it, fails: with git on the host and options that
    disable git, the repository is initialised all the same. *)
Lemma create_git_option_ignored :
  hasGit sample_host = true /\
  git_init_disabled sample_heap_caller (VRef 10) = true /\
  In (EvEmit "creation" "git-init")
     (events (create sample_host sample_creator (VRef 10) (VRef 4) sample_heap_caller)) /\
  In (EvExeca "git" ["init"] "/tmp/app" None)
     (events (create sample_host sample_creator (VRef 10) (VRef 4) sample_heap_caller)).
Proof.
  split; [reflexivity|]. split; [reflexivity|].
  split; vm_compute; find_in.
Qed.

(** C6, as the code has it.  When no preset is supplied, [create] first
    acquires one ([promptAndResolvePreset]): the acquisition changes nothing
    in the target directory, and when it throws (a rejected interview, a
    failed fetch, a preset that [validatePreset] rejects) [create] throws
    the same error and does nothing else.  The preset [p] that the
    acquisition returns is what [resolvePreset] gave, its successful
    validation is the last step of the acquisition, and it is the preset
    that [create] then works with: the rest of the run is [create_with] of
    [p].  So every action that can change the target directory comes after
    the successful validation of the preset in use.  A preset supplied by
    the caller is never validated. *)
Theorem create_validates_resolved_preset (host : Host) (this : Creator)
    (cliOptions preset : val) (h : heap) :
  (truthy preset = false ->
   all_events (fun ev => negb (mutates_target ev))
              (events (create_acquire host this cliOptions preset h)) /\
   (forall p,
      out (create_acquire host this cliOptions preset h) = Ok p ->
      (exists name hq, out (resolvePreset host name VUndefined hq) = Ok p) /\
      [EvValidatePreset p None] `suffix_of`
        events (create_acquire host this cliOptions preset h) /\
      out (create host this cliOptions preset h) =
        out (create_with host this (options_of h cliOptions) p
               (store (create_acquire host this cliOptions preset h))) /\
      events (create host this cliOptions preset h) =
        events (create_acquire host this cliOptions preset h) ++
        events (create_with host this (options_of h cliOptions) p
                  (store (create_acquire host this cliOptions preset h)))) /\
   (forall e,
      out (create_acquire host this cliOptions preset h) = Throw e ->
      out (create host this cliOptions preset h) = Throw e /\
      events (create host this cliOptions preset h) =
        events (create_acquire host this cliOptions preset h)) /\
   (forall pre ev post,
      events (create host this cliOptions preset h) = pre ++ ev :: post ->
      mutates_target ev = true ->
      exists p,
        out (create_acquire host this cliOptions preset h) = Ok p /\
        In (EvValidatePreset p None) pre) /\
   (forall p e,
      In (EvValidatePreset p (Some e)) (events (create host this cliOptions preset h)) ->
      out (create host this cliOptions preset h) = Throw e /\
      all_events (fun ev => negb (mutates_target ev))
                 (events (create host this cliOptions preset h)))) /\
  (truthy preset = true ->
   all_events (fun ev => negb (is_validation ev))
              (events (create host this cliOptions preset h))).
Proof.
  pose proof (create_after_acquire host this cliOptions preset h) as Hsplit.
  pose proof (create_with_no_validation host this (options_of h cliOptions)) as Hrest.
  split.
  - intros Hp.
    pose proof (create_acquire_run host this cliOptions preset h Hp) as Hrun.
    revert Hsplit Hrun Hrest. unfold out, store, events.
    destruct (create_acquire host this cliOptions preset h) as [[[p0|e0] ha] ea];
      cbn [fst snd]; intros Hsplit (Hk & Hok & Hfail) Hrest; rewrite Hsplit; cbn [fst snd].
    + destruct (Hok p0 eq_refl) as (Hs & Hres).
      split; [eapply all_events_impl; [exact kind_acquire_not_mutation|exact Hk]|].
      split; [intros p Heq; inversion Heq; subst; auto|].
      split; [intros e Heq; discriminate Heq|].
      split.
      * intros pre ev post Heq Hmut. exists p0. split; [reflexivity|].
        eapply validated_before; eassumption.
      * intros p e Hin. exfalso. apply in_app_or in Hin. destruct Hin as [Hin|Hin].
        -- apply Hfail in Hin. discriminate Hin.
        -- apply (all_events_In _ _ _ (Hrest p0 _)) in Hin. discriminate Hin.
    + split; [eapply all_events_impl; [exact kind_acquire_not_mutation|exact Hk]|].
      split; [intros p Heq; discriminate Heq|].
      split; [intros e Heq; inversion Heq; subst; auto|].
      split.
      * intros pre ev post Heq Hmut. exfalso.
        eapply no_mutation_in_acquire; eassumption.
      * intros p e Hin. apply Hfail in Hin. inversion Hin; subst.
        split; [reflexivity|].
        eapply all_events_impl; [exact kind_acquire_not_mutation|exact Hk].
  - intros Hp.
    assert (Hacq : exists h0,
               create_acquire host this cliOptions preset h =
                 (Ok (match preset with VPrim PUndefined => VNull | _ => preset end), h0, [])).
    { unfold create_acquire, bind.
      rewrite (truthy_supplied_value preset Hp). simpl negb. cbv iota.
      destruct cliOptions as [[| | | |]| | |]; eexists; reflexivity. }
    destruct Hacq as [h0 Hacq]. revert Hsplit Hrest. rewrite Hacq.
    unfold out, store, events. cbn [fst snd app].
    intros Hsplit Hrest. rewrite Hsplit. cbn [fst snd]. apply Hrest.
Qed.

Lemma create_validates_resolved_preset_witness :
  (out (create_acquire sample_host sample_creator VUndefined VUndefined sample_heap)
     = Ok (VRef 4) /\
   [EvValidatePreset (VRef 4) None] `suffix_of`
     events (create_acquire sample_host sample_creator VUndefined VUndefined sample_heap) /\
   (forall pre ev post,
      events (create sample_host sample_creator VUndefined VUndefined sample_heap)
        = pre ++ ev :: post ->
      mutates_target ev = true ->
      exists p,
        out (create_acquire sample_host sample_creator VUndefined VUndefined sample_heap)
          = Ok p /\
        In (EvValidatePreset p None) pre)) /\
  (out (create sample_host_unsaved sample_creator VUndefined VUndefined sample_heap)
     = Throw InvalidPreset /\
   all_events (fun ev => negb (mutates_target ev))
     (events (create sample_host_unsaved sample_creator VUndefined VUndefined sample_heap))) /\
  all_events (fun ev => negb (is_validation ev))
    (events (create sample_host sample_creator VUndefined (VRef 11) sample_heap_caller)).
Proof.
  pose proof (proj1 (create_validates_resolved_preset sample_host sample_creator
                       VUndefined VUndefined sample_heap) eq_refl)
    as (_ & Hok & _ & Hmut & _).
  split; [|split].
  - split; [reflexivity|]. split; [|exact Hmut].
    apply (Hok (VRef 4) eq_refl).
  - refine (proj2 (proj2 (proj2 (proj2
              (proj1 (create_validates_resolved_preset sample_host_unsaved sample_creator
                        VUndefined VUndefined sample_heap) eq_refl))))
              VUndefined InvalidPreset _).
    vm_compute. find_in.
  - apply (proj2 (create_validates_resolved_preset sample_host sample_creator
                    VUndefined (VRef 11) sample_heap_caller)).
    reflexivity.
Defined.

(** C6, as the spec words it, fails for a preset supplied by the caller:
    a preset whose [plugins] is not a mapping, which [validatePreset]
    rejects, is never validated; the manifest is written and the run
    completes. *)
Lemma create_supplied_preset_not_validated :
  validatePreset sample_host sample_heap_caller (VRef 11) = Some InvalidPreset /\
  out (create sample_host sample_creator VUndefined (VRef 11) sample_heap_caller) = Ok tt /\
  In (EvWriteFileTree "/tmp/app" "package.json" (JsonManifest "app" "0.1.0" true) None)
     (events (create sample_host sample_creator VUndefined (VRef 11) sample_heap_caller)) /\
  forall p failed,
    ~ In (EvValidatePreset p failed)
         (events (create sample_host sample_creator VUndefined (VRef 11) sample_heap_caller)).
Proof.
  split; [reflexivity|]. split; [reflexivity|]. split.
  - vm_compute. find_in.
  - intros p failed Hin. vm_compute in Hin.
    repeat (destruct Hin as [Hin|Hin]; [discriminate Hin|]). exact Hin.
Qed.

(** C4. When [git commit] throws, the error is caught: [create] returns,
    and after the failed commit it reports success, warns that the commit
    was skipped and prints the exit logs.  No other process failure is
    tolerated: a failure of any other spawned command or of the
    installation of the dependencies is the error that [create] throws. *)
Theorem create_tolerates_commit_failure_only (host : Host) (this : Creator)
    (cliOptions preset : val) (h : heap) :
  (forall e,
     In (EvExeca "git" ["commit"; "-m"; "init"] (creator_context this) (Some e))
        (events (create host this cliOptions preset h)) ->
     out (create host this cliOptions preset h) = Ok tt /\
     [EvExeca "git" ["commit"; "-m"; "init"] (creator_context this) (Some e);
      EvStopSpinner; EvLog MsgBlank; EvLog (MsgSuccess (creator_name this));
      EvLog MsgBlank; EvWarn MsgCommitSkipped; EvPrintExitLogs]
       `suffix_of` events (create host this cliOptions preset h)) /\
  (forall command args cwd e,
     In (EvExeca command args cwd (Some e)) (events (create host this cliOptions preset h)) ->
     args <> ["commit"; "-m"; "init"] ->
     out (create host this cliOptions preset h) = Throw e) /\
  (forall e,
     In (EvInstall (Some e)) (events (create host this cliOptions preset h)) ->
     out (create host this cliOptions preset h) = Throw e).
Proof.
  destruct (create host this cliOptions preset h) as [[r h'] evs] eqn:H.
  unfold out, events. simpl. create_start H.
  run_all; sub_runs; (split; [|split]).
  all: try (intros e Hin; in_cases Hin; inversion Hin; subst; clear Hin;
            first [ reflexivity | split; [reflexivity|suffix_tac] ]).
  all: intros command args cwd e Hin Hne; in_cases Hin; inversion Hin; subst; clear Hin;
       first [ reflexivity | exfalso; apply Hne; reflexivity ].
Qed.

Lemma create_tolerates_commit_failure_only_witness :
  (out (create sample_host sample_creator VUndefined VUndefined sample_heap) = Ok tt /\
   [EvExeca "git" ["commit"; "-m"; "init"] "/tmp/app"
      (Some (Failure "Please tell me who you are"));
    EvStopSpinner; EvLog MsgBlank; EvLog (MsgSuccess "app");
    EvLog MsgBlank; EvWarn MsgCommitSkipped; EvPrintExitLogs]
     `suffix_of` events (create sample_host sample_creator VUndefined VUndefined sample_heap)) /\
  out (create sample_host_no_spawn sample_creator VUndefined VUndefined sample_heap)
    = Throw (Failure "spawn git EACCES").
Proof.
  split.
  - refine (proj1 (create_tolerates_commit_failure_only sample_host sample_creator
                     VUndefined VUndefined sample_heap)
                  (Failure "Please tell me who you are") _).
    vm_compute. find_in.
  - refine (proj1 (proj2 (create_tolerates_commit_failure_only sample_host_no_spawn
                            sample_creator VUndefined VUndefined sample_heap))
                  "git" ["init"] "/tmp/app" (Failure "spawn git EACCES") _ _).
    + vm_compute. find_in.
    + discriminate.
Defined.

(** C3. In a run of [create] that reaches the execution of the hooks, the
    callbacks that are awaited are, in this order, the entries of
    [afterInvokeCbs] and then those of [afterAnyInvokeCbs] (the entries of
    the instance followed by those the generator appended), each completed
    before the next one is called.  Either all of them return, or one of
    them, at some position [k], throws: then exactly the callbacks before
    [k] have returned, the failing callback is the last action of the run,
    and its error is the error that [create] throws. *)
Theorem create_runs_hooks_in_order (host : Host) (this : Creator)
    (cliOptions preset : val) (h : heap) :
  In (EvLogWithSpinner MsgRunHooks) (events (create host this cliOptions preset h)) ->
  exists hg pkg plugins g g1 g2,
    snd (new_Generator host hg (creator_context this) pkg plugins) = Ok (g, g1, g2) /\
    let cbs := (afterInvokeCbs this ++ g1) ++ (afterAnyInvokeCbs this ++ g2) in
    List.filter hook_event (events (create host this cliOptions preset h))
      = map hook_returned cbs \/
    exists k cb e,
      cbs !! k = Some cb /\
      List.filter hook_event (events (create host this cliOptions preset h))
        = map hook_returned (take k cbs) ++ [EvHook (hook_id cb) (Some e)] /\
      [EvHook (hook_id cb) (Some e)] `suffix_of` events (create host this cliOptions preset h) /\
      out (create host this cliOptions preset h) = Throw e.
Proof.
  destruct (create host this cliOptions preset h) as [[r h'] evs] eqn:H.
  unfold out, events. simpl. intros Hin. create_start H.
  run_all; hooks_runs; sub_runs; try (exfalso; in_cases Hin; fail).
  all: match goal with
       | G : Ok ?x = snd (new_Generator _ ?hg _ ?pkg ?plugins) |- _ =>
           exists hg, pkg, plugins, (fst (fst x)), (snd (fst x)), (snd x);
           split; [rewrite <- G; destruct x as [[? ?] ?]; reflexivity|]
       end.
  all: cbv zeta;
    match goal with
    | |- _ \/ (exists k cb e, (?A ++ ?B) !! k = Some cb /\ _) =>
        first
          [ match goal with
            | Hk : A !! ?k = Some ?cb |- _ =>
                destruct (hooks_first_throws A B k cb Hk) as [Hl Ht];
                right; eexists k, cb, _; split; [exact Hl|]; rewrite Ht;
                split; [filter_hooks; reflexivity|]; split; [suffix_tac|reflexivity]
            end
          | match goal with
            | Hk : B !! ?k = Some ?cb |- _ =>
                destruct (hooks_second_throws A B k cb Hk) as [Hl Ht];
                right; eexists (length A + k), cb, _; split; [exact Hl|]; rewrite Ht;
                split; [filter_hooks; rewrite <- ?app_assoc; reflexivity|];
                split; [suffix_tac|reflexivity]
            end
          | left; filter_hooks; rewrite !List.map_app, <- ?app_assoc; reflexivity ]
    end.
Qed.

Lemma create_runs_hooks_in_order_witness :
  (exists hg pkg plugins g g1 g2,
     snd (new_Generator sample_host_failing_hook hg "/tmp/app" pkg plugins) = Ok (g, g1, g2) /\
     let cbs := ([] ++ g1) ++ ([] ++ g2) in
     List.filter hook_event
       (events (create sample_host_failing_hook sample_creator VUndefined VUndefined sample_heap))
       = map hook_returned cbs \/
     exists k cb e,
       cbs !! k = Some cb /\
       List.filter hook_event
         (events (create sample_host_failing_hook sample_creator
                    VUndefined VUndefined sample_heap))
         = map hook_returned (take k cbs) ++ [EvHook (hook_id cb) (Some e)] /\
       [EvHook (hook_id cb) (Some e)]
         `suffix_of` events (create sample_host_failing_hook sample_creator
                               VUndefined VUndefined sample_heap) /\
       out (create sample_host_failing_hook sample_creator VUndefined VUndefined sample_heap)
         = Throw e) /\
  List.filter hook_event
    (events (create sample_host_failing_hook sample_creator VUndefined VUndefined sample_heap))
    = [EvHook 1 None; EvHook 2 (Some (Failure "lint failed"))] /\
  out (create sample_host_failing_hook sample_creator VUndefined VUndefined sample_heap)
    = Throw (Failure "lint failed").
Proof.
  split; [|split; reflexivity].
  apply (create_runs_hooks_in_order sample_host_failing_hook sample_creator
           VUndefined VUndefined sample_heap).
  vm_compute. find_in.
Defined.

(** ** Sharing between the preset and what [create] works on *)





(** * Further properties of the methods *)

(** ** The prompt for the package manager *)

(** X1. [resolveOutroPrompts] leaves the store as it is and records no
    action.  It yields no prompt when a package manager is saved or when
    neither Yarn nor a PNPM of version 3 or later is detected; otherwise it
    yields the single prompt [packageManager], whose choices are ['yarn']
    when Yarn is detected, then ['pnpm'] when PNPM is, then ['npm'], which
    is always offered last. *)
Theorem resolveOutroPrompts_choices (host : Host) (h : heap) oo :
  object_at h (loadOptions host) oo ->
  exists qs,
    resolveOutroPrompts host h = (Ok qs, h, []) /\
    (qs = [] <->
       truthy (prop_of oo "packageManager") = true \/
       (hasYarn host = false /\ hasPnpm3OrLater host = false)) /\
    length qs <= 1 /\
    forall q, In q qs ->
      question_name q = "packageManager" /\
      question_type q = "list" /\
      map choice_value (question_choices q) =
        (if hasYarn host then ["yarn"] else []) ++
        (if hasPnpm3OrLater host then ["pnpm"] else []) ++ ["npm"].
Proof.
  intros (lo & Hlo & Hoo). unfold resolveOutroPrompts. rewrite Hlo.
  rewrite (bind_ok _ _ _ _ _ _ (get_prop_object lo oo _ h Hoo)).
  destruct (truthy (prop_of oo "packageManager")); simpl negb; simpl andb.
  - exists []. split; [reflexivity|]. split; [tauto|]. split; [simpl; lia|].
    intros q [].
  - destruct (hasYarn host), (hasPnpm3OrLater host); simpl;
      eexists; (split; [reflexivity|]).
    4: { split; [tauto|]. split; [simpl; lia|]. intros q []. }
    all: split; [split; [discriminate|intros [H|[H1 H2]]; discriminate]|].
    all: split; [simpl; lia|]; intros q [<-|[]]; repeat split; reflexivity.
Qed.

Lemma resolveOutroPrompts_choices_witness :
  exists qs,
    resolveOutroPrompts sample_host sample_heap = (Ok qs, sample_heap, []) /\
    (qs = [] <->
       truthy (prop_of [("presets", VRef 2)] "packageManager") = true \/
       (hasYarn sample_host = false /\ hasPnpm3OrLater sample_host = false)) /\
    length qs <= 1 /\
    forall q, In q qs ->
      question_name q = "packageManager" /\
      question_type q = "list" /\
      map choice_value (question_choices q) = ["pnpm"; "npm"].
Proof.
  apply (resolveOutroPrompts_choices sample_host sample_heap [("presets", VRef 2)]).
  exists 0. split; reflexivity.
Defined.

(** X2. Whenever the prompt for the package manager is shown, its first
    choice is the package manager that [create] uses when the command line
    names none. *)
Theorem resolveOutroPrompts_first_choice_is_default (host : Host) (h : heap)
    (cliOptions : val) ocli oo q qs :
  object_at h cliOptions ocli ->
  object_at h (loadOptions host) oo ->
  truthy (prop_of ocli "packageManager") = false ->
  out (resolveOutroPrompts host h) = Ok (q :: qs) ->
  exists c cs,
    question_choices q = c :: cs /\
    create_packageManager host cliOptions h = (Ok (VStr (choice_value c)), h, []).
Proof.
  intros Hcli Hopts Hnone Hq.
  rewrite (create_packageManager_value host cliOptions h ocli oo Hcli Hopts). rewrite Hnone.
  destruct Hopts as (lo & Hlo & Hoo). unfold resolveOutroPrompts in Hq. rewrite Hlo in Hq.
  rewrite (bind_ok _ _ _ _ _ _ (get_prop_object lo oo _ h Hoo)) in Hq.
  destruct (truthy (prop_of oo "packageManager")); simpl in Hq; [discriminate Hq|].
  destruct (hasYarn host), (hasPnpm3OrLater host); simpl in Hq;
    inversion Hq; subst; simpl; eauto.
Qed.

Lemma resolveOutroPrompts_first_choice_is_default_witness :
  exists c cs,
    question_choices
      {| question_name := "packageManager";
         question_type := "list";
         question_message := "Pick the package manager to use when installing dependencies:";
         question_choices :=
           [{| choice_name := "Use PNPM"; choice_value := "pnpm"; choice_short := "PNPM" |};
            {| choice_name := "Use NPM"; choice_value := "npm"; choice_short := "NPM" |}] |}
      = c :: cs /\
    create_packageManager sample_host (VRef 6) sample_heap =
      (Ok (VStr (choice_value c)), sample_heap, []).
Proof.
  apply (resolveOutroPrompts_first_choice_is_default sample_host sample_heap (VRef 6)
           [] [("presets", VRef 2)] _ []).
  - exists 6. split; reflexivity.
  - exists 0. split; reflexivity.
  - reflexivity.
  - reflexivity.
Defined.

(** ** Spawning a command *)

Lemma append_cons (c : ascii) (a b : string) : String c a +:+ b = String c (a +:+ b).
Proof. reflexivity. Qed.

Lemma append_empty_l (a : string) : "" +:+ a = a.
Proof. reflexivity. Qed.

Lemma append_assoc (a b c : string) : (a +:+ b) +:+ c = a +:+ (b +:+ c).
Proof.
  induction a as [|x a IH]; [reflexivity|].
  rewrite !append_cons. now rewrite IH.
Qed.

Lemma append_empty_r (a : string) : a +:+ "" = a.
Proof.
  induction a as [|x a IH]; [reflexivity|]. rewrite append_cons. now rewrite IH.
Qed.

Lemma split_ws_from_chars (w s cur : string) :
  no_space w = true ->
  split_ws_from (w +:+ s) cur false = split_ws_from s (cur +:+ w) false.
Proof.
  revert cur. induction w as [|c w IH]; intros cur Hw.
  - now rewrite append_empty_l, append_empty_r.
  - simpl in Hw. apply andb_prop in Hw as [Hc Hw].
    apply andb_prop in Hc as [Hc _]. apply negb_true_iff in Hc.
    rewrite append_cons. simpl. rewrite Hc.
    rewrite IH by assumption. rewrite append_assoc. reflexivity.
Qed.

Lemma split_ws_from_word (w s cur : string) :
  is_word w = true ->
  split_ws_from (w +:+ s) cur true = split_ws_from s (cur +:+ w) false.
Proof.
  unfold is_word. intros Hw. apply andb_prop in Hw as [Hne Hw].
  destruct w as [|c w]; [discriminate Hne|]. simpl in Hw.
  apply andb_prop in Hw as [Hc Hw].
  apply andb_prop in Hc as [Hc _]. apply negb_true_iff in Hc.
  rewrite append_cons. simpl. rewrite Hc.
  rewrite split_ws_from_chars by assumption. rewrite append_assoc. reflexivity.
Qed.

Lemma split_ws_from_spaces (g s cur : string) :
  all_space g = true ->
  split_ws_from (g +:+ s) cur true = split_ws_from s cur true.
Proof.
  induction g as [|c g IH]; intros Hg; [reflexivity|]. simpl in Hg.
  apply andb_prop in Hg as [Hc Hg]. rewrite append_cons. simpl. rewrite Hc.
  now apply IH.
Qed.

Lemma split_ws_from_gap (g s cur : string) :
  is_gap g = true ->
  split_ws_from (g +:+ s) cur false = cur :: split_ws_from s "" true.
Proof.
  unfold is_gap. intros Hg. apply andb_prop in Hg as [Hne Hg].
  destruct g as [|c g]; [discriminate Hne|]. simpl in Hg.
  apply andb_prop in Hg as [Hc Hg]. rewrite append_cons. simpl. rewrite Hc. f_equal.
  now apply split_ws_from_spaces.
Qed.

Lemma split_ws_from_rest (rest : list (string * string)) (cur : string) :
  Forall (fun p => is_gap (fst p) = true /\ is_word (snd p) = true) rest ->
  split_ws_from (fold_right (fun p s => fst p +:+ snd p +:+ s) "" rest) cur false =
  cur :: map snd rest.
Proof.
  intros H. revert cur. induction H as [|[g w] rest [Hg Hw] _ IH]; intros cur.
  - reflexivity.
  - cbn [fold_right map fst snd] in *. rewrite split_ws_from_gap by assumption. f_equal.
    rewrite split_ws_from_word by assumption. apply IH.
Qed.

(** X3. [run] without arguments splits the command line at white space: a
    line made of words, each two separated by a non-empty run of white
    space, is spawned as [run] spawns its first word with the other words as
    the arguments, in order. *)
Theorem run_splits_command_line (host : Host) (this : Creator) (w : string)
    (rest : list (string * string)) (h : heap) :
  is_word w = true ->
  Forall (fun p => is_gap (fst p) = true /\ is_word (snd p) = true) rest ->
  run host this (command_line w rest) None h =
  run host this w (Some (map snd rest)) h.
Proof.
  intros Hw Hrest. unfold run, split_ws, command_line.
  unfold is_word in Hw. apply andb_prop in Hw as [_ Hw].
  rewrite split_ws_from_chars by assumption.
  rewrite split_ws_from_rest by assumption. reflexivity.
Qed.

Lemma run_splits_command_line_witness :
  run sample_host sample_creator "git  commit -m init" None sample_heap =
  run sample_host sample_creator "git" (Some ["commit"; "-m"; "init"]) sample_heap.
Proof.
  apply (run_splits_command_line sample_host sample_creator "git"
           [("  ", "commit"); (" ", "-m"); (" ", "init")] sample_heap).
  - reflexivity.
  - repeat constructor.
Defined.

(** X4. A command line that is empty or starts with white space makes
    [run] spawn the command with the empty name: the split yields an empty
    first field, which is taken as the command. *)
Theorem run_leading_space_spawns_empty_command (host : Host) (this : Creator)
    (command : string) (h : heap) :
  match command with
  | EmptyString => True
  | String c _ => is_space c = true
  end ->
  exists args,
    run host this command None h = run host this "" (Some args) h.
Proof.
  intros H. unfold run, split_ws. destruct command as [|c s].
  - exists []. reflexivity.
  - change (split_ws_from (String c s) "" false)
      with (if is_space c then "" :: split_ws_from s "" true
            else split_ws_from s ("" +:+ String c "") false).
    rewrite H. eexists. reflexivity.
Qed.

Lemma run_leading_space_spawns_empty_command_witness :
  exists args,
    run sample_host sample_creator " git init" None sample_heap =
    run sample_host sample_creator "" (Some args) sample_heap.
Proof.
  apply (run_leading_space_spawns_empty_command sample_host sample_creator " git init").
  reflexivity.
Defined.

(** ** The merged presets *)

Lemma getPresets_run (host : Host) (h : heap) oo os od odp :
  object_at h (loadOptions host) oo ->
  (nullish (prop_of oo "presets") = true /\ os = []) \/
    object_at h (prop_of oo "presets") os ->
  object_at h (defaults host) od ->
  object_at h (prop_of od "presets") odp ->
  exists h',
    getPresets host h = (Ok (VRef (length h)), h', []) /\
    h' !! length h = Some (assigned (assigned [] os (obj_keys os)) odp (obj_keys odp)) /\
    length h' = S (length h) /\
    forall j, j < length h -> h' !! j = h !! j.
Proof.
  intros (lo & Hlo & Hoo) Hsaved (ld & Hld & Hod) (ldp & Hldp & Hodp).
  assert (Hlt : forall l (o : object), h !! l = Some o -> length h <> l).
  { intros l o Hl. apply lookup_lt_Some in Hl. lia. }
  set (h1 := h ++ [[]] : heap).
  assert (Hext : forall l (o : object), h !! l = Some o -> h1 !! l = Some o).
  { intros l o Hl. unfold h1. rewrite lookup_app_l; [exact Hl|]. eapply lookup_lt_Some; eauto. }
  assert (Ht : h1 !! length h = Some []) by apply lookup_snoc_new.
  assert (Hlen1 : length h1 = S (length h)).
  { unfold h1. rewrite length_app. simpl. lia. }
  assert (Hold1 : forall j, j < length h -> h1 !! j = h !! j).
  { intros j Hj. unfold h1. now rewrite lookup_app_l. }
  assert (Hsrc : exists h2,
             assign_source (length h) (prop_of oo "presets") h1 = (Ok tt, h2, []) /\
             h2 !! length h = Some (assigned [] os (obj_keys os)) /\
             length h2 = length h1 /\
             forall j, j <> length h -> h2 !! j = h1 !! j).
  { destruct Hsaved as [[Hnull ->]|(ls & Hls & Hos)].
    - exists h1. split; [|auto].
      destruct (prop_of oo "presets") as [[| | | |]| | |]; try discriminate Hnull; reflexivity.
    - destruct (assign_keys_run (length h) ls os (obj_keys os) [] h1
                  (Hext ls os Hos) Ht (Hlt ls os Hos))
        as (h2 & Hrun2 & Hget2 & Hlen2 & Hother2).
      exists h2. split; [|auto]. rewrite Hls. simpl assign_source.
      unfold bind at 1. unfold Object_keys at 1, own_keys at 1.
      rewrite (Hext ls os Hos). rewrite Hrun2. reflexivity. }
  destruct Hsrc as (h2 & Hrun2 & Hget2 & Hlen2 & Hother2).
  assert (H2dp : h2 !! ldp = Some odp).
  { rewrite Hother2; [eauto|]. intros E. eapply Hlt; eauto. }
  destruct (assign_keys_run (length h) ldp odp (obj_keys odp)
              (assigned [] os (obj_keys os)) h2 H2dp Hget2 (Hlt ldp odp Hodp))
    as (h3 & Hrun3 & Hget3 & Hlen3 & Hother3).
  exists h3. split; [|split; [exact Hget3|split; [lia|]]].
  - unfold getPresets. rewrite Hlo, Hld.
    unfold bind at 1. unfold alloc at 1. fold h1.
    unfold bind at 1. rewrite (get_prop_object lo oo "presets" h1) by eauto.
    unfold bind at 1. rewrite (get_prop_object ld od "presets" h1) by eauto.
    cbn [Object_assign]. unfold bind at 1. rewrite Hrun2.
    rewrite Hldp. simpl assign_source.
    unfold bind at 1. unfold bind at 1. unfold Object_keys at 1, own_keys at 1.
    rewrite H2dp. rewrite Hrun3. reflexivity.
  - intros j Hj. rewrite Hother3 by lia. rewrite Hother2 by lia. now apply Hold1.
Qed.

(** X5. [getPresets] builds its result in a new object: the value returned
    is a reference to the one cell added to the store, every object that
    existed before, the saved and the built-in presets among them, is left
    as it was, and no action is recorded. *)
Theorem getPresets_leaves_sources_unchanged (host : Host) (h : heap) oo os od odp :
  object_at h (loadOptions host) oo ->
  (nullish (prop_of oo "presets") = true /\ os = []) \/
    object_at h (prop_of oo "presets") os ->
  object_at h (defaults host) od ->
  object_at h (prop_of od "presets") odp ->
  out (getPresets host h) = Ok (VRef (length h)) /\
  events (getPresets host h) = [] /\
  length (store (getPresets host h)) = S (length h) /\
  forall l, l < length h -> store (getPresets host h) !! l = h !! l.
Proof.
  intros Hopts Hsaved Hdef Hbuiltin.
  destruct (getPresets_run host h oo os od odp Hopts Hsaved Hdef Hbuiltin)
    as (h' & Hrun & _ & Hlen & Hold).
  rewrite Hrun. unfold out, events, store. simpl. auto.
Qed.

Lemma getPresets_leaves_sources_unchanged_witness :
  out (getPresets sample_host sample_heap) = Ok (VRef (length sample_heap)) /\
  events (getPresets sample_host sample_heap) = [] /\
  length (store (getPresets sample_host sample_heap)) = S (length sample_heap) /\
  forall l, l < length sample_heap ->
    store (getPresets sample_host sample_heap) !! l = sample_heap !! l.
Proof.
  apply (getPresets_leaves_sources_unchanged sample_host sample_heap
           [("presets", VRef 2)] [("webpack", VRef 4)]
           [("presets", VRef 3)] [("webpack", VRef 8)]).
  - exists 0. split; reflexivity.
  - right. exists 2. split; reflexivity.
  - exists 1. split; reflexivity.
  - exists 3. split; reflexivity.
Defined.







(** ** Resolution of the preset *)

(** X7. For a primitive name, the remote loader is consulted by
    [resolvePreset] only when the name is a string containing ['/'], and it
    is handed the name and the [clone] flag as they came; when it fails,
    [resolvePreset] throws its error, and when it succeeds, [resolvePreset]
    returns. *)
Theorem resolvePreset_loader_call (host : Host) (name : prim) (clone : val) (h : heap)
    n c f :
  In (EvLoadRemotePreset n c f) (events (resolvePreset host (VPrim name) clone h)) ->
  n = VPrim name /\ c = clone /\
  (exists s, name = PStr s /\ includes s "/" = true) /\
  match f with
  | Some e => out (resolvePreset host (VPrim name) clone h) = Throw e
  | None => exists v, out (resolvePreset host (VPrim name) clone h) = Ok v
  end.
Proof.
  destruct (resolvePreset host (VPrim name) clone h) as [[r h'] evs] eqn:H.
  unfold events, out. simpl. intros Hin.
  unfold resolvePreset, name_includes in H.
  run_all; in_cases Hin; inversion Hin; subst; eauto 10.
Qed.

Lemma resolvePreset_loader_call_witness :
  VStr "owner/repo" = VPrim (PStr "owner/repo") /\ VUndefined = VUndefined /\
  (exists s, PStr "owner/repo" = PStr s /\ includes s "/" = true) /\
  out (resolvePreset sample_host (VStr "owner/repo") VUndefined sample_heap) =
    Throw (Failure "ENOTFOUND").
Proof.
  apply (resolvePreset_loader_call sample_host (PStr "owner/repo") VUndefined sample_heap
           (VStr "owner/repo") VUndefined (Some (Failure "ENOTFOUND"))).
  vm_compute. auto.
Defined.




Lemma inherited_prim_key (p : prim) :
  (forall s, p <> PStr s) -> inherited (to_key (VPrim p)) = None.
Proof.
  intros Hns. destruct p as [| |[|]|n|s]; try reflexivity.
  - unfold to_key. destruct (Z.to_int n) as [u|u]; destruct u; reflexivity.
  - exfalso. apply (Hns s). reflexivity.
Qed.

(** X9. A primitive name that is not a string (for a number: a safe
    integer) and that is not a key of the saved presets, as the [undefined]
    that an answer without [preset] gives, makes [resolvePreset] throw a
    TypeError at [name.includes]; nothing is fetched and nothing is
    reported. *)
Theorem resolvePreset_name_not_string (host : Host) (name : prim) (clone : val)
    (h : heap) oo :
  object_at h (loadOptions host) oo ->
  truthy (prop_of oo "presets") = false \/ is_object h (prop_of oo "presets") ->
  (forall s, name <> PStr s) ->
  in_model name = true ->
  ~ In (to_key (VPrim name)) (own_keys h (prop_of oo "presets")) ->
  (exists what, out (resolvePreset host (VPrim name) clone h) = Throw (TypeError what)) /\
  exists savedPresets,
    events (resolvePreset host (VPrim name) clone h) =
      [EvConsoleLog [VPrim name; VUndefined; savedPresets]].
Proof.
  intros (lo & Hlo & Hoo) Hsaved Hns _ Hnot.
  pose proof (inherited_prim_key name Hns) as Hinh.
  unfold resolvePreset. rewrite Hlo.
  rewrite (bind_ok _ _ _ _ _ _ (get_prop_object lo oo "presets" h Hoo)).
  destruct (truthy (prop_of oo "presets")) eqn:Ht.
  - destruct Hsaved as [Hf|Hobj]; [discriminate Hf|].
    destruct (prop_of oo "presets") as [| ls | |] eqn:Hp; simpl in Hobj; try contradiction.
    destruct Hobj as [os Hos].
    unfold own_keys in Hnot. rewrite Hos in Hnot.
    unfold bind, ret, emit, try_catch, call_data, name_includes, throw.
    rewrite (has_property_object _ ls os h Hos).
    rewrite (obj_has_none os _ Hnot Hinh). simpl.
    destruct name as [| | | |s]; simpl; try (split; eauto; fail).
    exfalso. apply (Hns s). reflexivity.
  - unfold bind, ret, emit, try_catch, call_data, name_includes, throw, alloc.
    rewrite (has_property_object _ (length h) [] (h ++ [[]]) (lookup_snoc_new h [])).
    rewrite (obj_has_none [] _ (fun H => H) Hinh). simpl.
    destruct name as [| | | |s]; simpl; try (split; eauto; fail).
    exfalso. apply (Hns s). reflexivity.
Qed.

Lemma resolvePreset_name_not_string_witness :
  (exists what,
     out (resolvePreset sample_host VUndefined VUndefined sample_heap) =
       Throw (TypeError what)) /\
  exists savedPresets,
    events (resolvePreset sample_host VUndefined VUndefined sample_heap) =
      [EvConsoleLog [VUndefined; VUndefined; savedPresets]].
Proof.
  apply (resolvePreset_name_not_string sample_host PUndefined VUndefined sample_heap
           [("presets", VRef 2)]).
  - exists 0. split; reflexivity.
  - right. vm_compute. eauto.
  - intros s H. discriminate H.
  - reflexivity.
  - vm_compute. intros [H|[]]. discriminate H.
Defined.

(** X10. [resolvePreset] for a primitive name, [promptAndResolvePreset]
    when it runs the interview, and [resolvePlugins] only add objects to the
    store: every object that existed before the call, the saved presets
    among them, is there after it, unchanged. *)
Theorem resolution_only_allocates (host : Host) (this : Creator) (h : heap) :
  (forall (name : prim) clone,
     h `prefix_of` store (resolvePreset host (VPrim name) clone h)) /\
  (forall answers,
     truthy answers = false ->
     h `prefix_of` store (promptAndResolvePreset host this answers h)) /\
  (forall rawPlugins, h `prefix_of` store (resolvePlugins host this rawPlugins h)).
Proof.
  split; [|split].
  - intros name clone.
    destruct (resolvePreset host (VPrim name) clone h) as [[r h'] evs] eqn:H.
    apply resolvePreset_run in H. apply H.
  - intros answers _.
    destruct (promptAndResolvePreset host this answers h) as [[r h'] evs] eqn:H.
    apply promptAndResolvePreset_run in H. apply H.
  - intros rawPlugins.
    destruct (resolvePlugins host this rawPlugins h) as [[r h'] evs] eqn:H.
    apply resolvePlugins_events in H. apply H.
Qed.

Lemma resolution_only_allocates_witness :
  sample_heap `prefix_of`
    store (promptAndResolvePreset sample_host sample_creator VUndefined sample_heap).
Proof.
  apply (proj1 (proj2 (resolution_only_allocates sample_host sample_creator sample_heap))).
  reflexivity.
Defined.

(** X11. [promptAndResolvePreset] interviews the user only when it is
    given no answers, and then once, as its first step after clearing the
    console, with the prompts of [resolveFinalPrompts]; a rejected interview
    ends the call with the error of the interview. *)
Theorem promptAndResolvePreset_interview (host : Host) (this : Creator) (answers : val)
    (h : heap) arg f :
  In (EvPrompt arg f) (events (promptAndResolvePreset host this answers h)) ->
  truthy answers = false /\
  arg = PromptFinal (resolveFinalPrompts this) /\
  [EvClearConsole true; EvPrompt arg f] `prefix_of`
    events (promptAndResolvePreset host this answers h) /\
  forall e, f = Some e ->
    out (promptAndResolvePreset host this answers h) = Throw e /\
    events (promptAndResolvePreset host this answers h) =
      [EvClearConsole true; EvPrompt arg f].
Proof.
  destruct (promptAndResolvePreset host this answers h) as [[r h'] evs] eqn:H.
  unfold events, out. simpl. intros Hin.
  unfold promptAndResolvePreset, call_prompt in H.
  run_all;
    repeat match goal with
           | R : resolvePreset _ _ _ _ = (_, _, _) |- _ =>
               apply resolvePreset_run in R; destruct R as [? ?]
           end;
    in_cases Hin; inversion Hin; subst;
    (split; [apply negb_true_iff; assumption|]);
    (split; [reflexivity|]);
    (split; [eexists; reflexivity|]);
    intros e0 He0; try discriminate He0; inversion He0; subst; auto.
Qed.

Lemma promptAndResolvePreset_interview_witness :
  truthy VUndefined = false /\
  PromptFinal (resolveFinalPrompts sample_creator) =
    PromptFinal (resolveFinalPrompts sample_creator) /\
  [EvClearConsole true; EvPrompt (PromptFinal (resolveFinalPrompts sample_creator)) None]
    `prefix_of` events (promptAndResolvePreset sample_host sample_creator VUndefined sample_heap) /\
  forall e, None = Some e ->
    out (promptAndResolvePreset sample_host sample_creator VUndefined sample_heap) = Throw e /\
    events (promptAndResolvePreset sample_host sample_creator VUndefined sample_heap) =
      [EvClearConsole true; EvPrompt (PromptFinal (resolveFinalPrompts sample_creator)) None].
Proof.
  apply (promptAndResolvePreset_interview sample_host sample_creator VUndefined sample_heap).
  vm_compute. auto.
Defined.

(** X12. In [promptAndResolvePreset] the validation is the last step: it
    is applied to the preset that [resolvePreset] gave, nothing follows it,
    and the call returns that preset when the validation passes and throws
    the error of the validation otherwise. *)
Theorem promptAndResolvePreset_validation_last (host : Host) (this : Creator)
    (answers : val) (h : heap) p f :
  In (EvValidatePreset p f) (events (promptAndResolvePreset host this answers h)) ->
  [EvValidatePreset p f] `suffix_of` events (promptAndResolvePreset host this answers h) /\
  out (promptAndResolvePreset host this answers h) =
    match f with
    | None => Ok p
    | Some e => Throw e
    end.
Proof.
  destruct (promptAndResolvePreset host this answers h) as [[r h'] evs] eqn:H.
  unfold events, out. simpl. intros Hin.
  unfold promptAndResolvePreset, call_prompt in H.
  run_all;
    repeat match goal with
           | R : resolvePreset _ _ _ _ = (_, _, _) |- _ =>
               apply resolvePreset_run in R; destruct R as [? ?]
           end;
    in_cases Hin; inversion Hin; subst;
    (split; [suffix_tac|reflexivity]).
Qed.

Lemma promptAndResolvePreset_validation_last_witness :
  [EvValidatePreset (VRef 4) None] `suffix_of`
    events (promptAndResolvePreset sample_host sample_creator VUndefined sample_heap) /\
  out (promptAndResolvePreset sample_host sample_creator VUndefined sample_heap) =
    Ok (VRef 4).
Proof.
  apply (promptAndResolvePreset_validation_last sample_host sample_creator VUndefined
           sample_heap (VRef 4) None).
  vm_compute. auto 10.
Defined.

(** ** Plugin resolution without and with an interview *)

Lemma get_prop_bound (h h1 : heap) v k :
  bound_val h v -> h `prefix_of` h1 -> truthy v = true ->
  get_prop v k h1 = (Ok (read_prop h v k), h1, []).
Proof.
  intros Hb Hpre Ht. unfold read_prop, out, get_prop.
  destruct v as [[| |b|n|s]|l'| |]; simpl in *; try discriminate Ht; try reflexivity.
  destruct (lookup_lt_is_Some_2 h l' Hb) as [o' Ho'].
  rewrite Ho'. rewrite (prefix_lookup_Some _ _ _ _ Ho' Hpre). reflexivity.
Qed.

Lemma resolvePlugin_plain (host : Host) (this : Creator) l o id (h h1 : heap) :
  h !! l = Some o -> h `prefix_of` h1 ->
  bound_val h (prop_of o id) ->
  has_interview host this h (prop_of o id) id = false ->
  exists p h2,
    resolvePlugin host this (VRef l) id h1 = (Ok p, h2, []) /\
    h1 `prefix_of` h2 /\ plugin_id p = id /\ options_passed h o h2 p.
Proof.
  intros Hl Hpre Hb Hno. unfold resolvePlugin.
  rewrite (bind_ok _ _ _ _ _ _
             (get_prop_object l o id h1 (prefix_lookup_Some _ _ _ _ Hl Hpre))).
  unfold options_passed. simpl plugin_id. simpl plugin_options.
  destruct (truthy (prop_of o id)) eqn:Ht.
  - rewrite (bind_ok _ _ _ _ _ _ (eq_refl : ret (prop_of o id) h1 = (Ok _, h1, []))).
    rewrite (bind_ok _ _ _ _ _ _ (get_prop_bound h h1 _ "prompts" Hb Hpre Ht)).
    unfold has_interview in Hno.
    destruct (truthy (read_prop h (prop_of o id) "prompts")); simpl in Hno.
    + rewrite Hno. eexists _, h1. split; [reflexivity|]. simpl. rewrite Ht. auto.
    + eexists _, h1. split; [reflexivity|]. simpl. rewrite Ht. auto.
  - rewrite (bind_ok _ _ _ _ _ _
               (eq_refl : alloc [] h1 = (Ok (VRef (length h1)), h1 ++ [[]], []))).
    rewrite (bind_ok _ _ _ _ _ _
               (get_prop_object (length h1) [] "prompts" (h1 ++ [[]]) (lookup_snoc_new h1 []))).
    eexists _, (h1 ++ [[]]). split; [reflexivity|]. simpl. rewrite Ht.
    split; [apply prefix_snoc|]. split; [reflexivity|]. split.
    + apply prefix_length in Hpre. exact Hpre.
    + exists (length h1). split; [reflexivity|apply lookup_snoc_new].
Qed.

Lemma options_passed_prefix h o h1 h2 p :
  options_passed h o h1 p -> h1 `prefix_of` h2 -> options_passed h o h2 p.
Proof.
  unfold options_passed. destruct (truthy (prop_of o (plugin_id p))); [auto|].
  intros [Hf Hobj] Hpre. split; [exact Hf|]. eapply object_at_prefix; eauto.
Qed.

Lemma resolvePlugins_loop_plain (host : Host) (this : Creator) l o (h : heap) ids :
  h !! l = Some o ->
  (forall id, In id ids ->
     bound_val h (prop_of o id) /\ has_interview host this h (prop_of o id) id = false) ->
  forall acc h1, h `prefix_of` h1 ->
    exists ps h2,
      resolvePlugins_loop host this (VRef l) ids acc h1 = (Ok (acc ++ ps), h2, []) /\
      h1 `prefix_of` h2 /\ map plugin_id ps = ids /\ Forall (options_passed h o h2) ps.
Proof.
  intros Hl. induction ids as [|id ids IH]; intros Hids acc h1 Hpre.
  - exists [], h1. rewrite app_nil_r. simpl.
    split; [reflexivity|]. split; [reflexivity|]. split; [reflexivity|constructor].
  - destruct (Hids id (or_introl eq_refl)) as [Hb Hno].
    destruct (resolvePlugin_plain host this l o id h h1 Hl Hpre Hb Hno)
      as (p & h2 & Hp & Hpre2 & Hid & Hopt).
    destruct (IH (fun id' Hin => Hids id' (or_intror Hin)) (acc ++ [p]) h2)
      as (ps & h3 & Hloop & Hpre3 & Hmap & Hall); [etrans; eauto|].
    exists (p :: ps), h3. simpl resolvePlugins_loop.
    rewrite (bind_ok _ _ _ _ _ _ Hp). rewrite Hloop. rewrite <- app_assoc.
    split; [reflexivity|]. split; [etrans; eauto|]. split; [simpl; congruence|].
    constructor; [eapply options_passed_prefix; eauto|exact Hall].
Qed.

(** X13. When no plugin has both a truthy [prompts] in its options and a
    prompts module, [resolvePlugins] records no action and returns one
    entry per key whose options are the very value found in the raw
    mapping when that value is truthy (the options are passed on, not
    copied), and a new empty object otherwise. *)
Theorem resolvePlugins_without_interview (host : Host) (this : Creator) l o (h : heap) :
  h !! l = Some o ->
  (forall id, In id (obj_keys o) ->
     bound_val h (prop_of o id) /\ has_interview host this h (prop_of o id) id = false) ->
  events (resolvePlugins host this (VRef l) h) = [] /\
  exists plugins,
    out (resolvePlugins host this (VRef l) h) = Ok plugins /\
    map plugin_id plugins = obj_keys o /\
    Forall (options_passed h o (store (resolvePlugins host this (VRef l) h))) plugins.
Proof.
  intros Hl Hids.
  destruct (resolvePlugins_loop_plain host this l o h (obj_keys o) Hl Hids [] h)
    as (ps & h2 & Hloop & _ & Hmap & Hall); [reflexivity|].
  assert (Hrun : resolvePlugins host this (VRef l) h = (Ok ps, h2, [])).
  { unfold resolvePlugins.
    assert (Hk : Object_keys (VRef l) h = (Ok (obj_keys o), h, [])).
    { unfold Object_keys, own_keys. rewrite Hl. reflexivity. }
    rewrite (bind_ok _ _ _ _ _ _ Hk). rewrite Hloop. reflexivity. }
  rewrite Hrun. unfold events, out, store. simpl. eauto.
Qed.

Lemma resolvePlugins_without_interview_witness :
  events (resolvePlugins sample_host sample_creator (VRef 0) sample_heap_plugins) = [] /\
  exists plugins,
    out (resolvePlugins sample_host sample_creator (VRef 0) sample_heap_plugins) = Ok plugins /\
    map plugin_id plugins = ["plugin-a"; "plugin-c"] /\
    Forall (options_passed sample_heap_plugins [("plugin-a", VRef 1); ("plugin-c", VNull)]
              (store (resolvePlugins sample_host sample_creator (VRef 0) sample_heap_plugins)))
           plugins.
Proof.
  apply (resolvePlugins_without_interview sample_host sample_creator 0
           [("plugin-a", VRef 1); ("plugin-c", VNull)] sample_heap_plugins).
  - reflexivity.
  - intros id [<-|[<-|[]]]; (split; [simpl; lia|reflexivity]).
Defined.

(** X14. For a plugin whose options carry a truthy [prompts] and whose
    prompts module is found, the loop of [resolvePlugins] prints a blank
    line and a title (['Preset options:'] when the options carry a truthy
    [_isPreset], the id of the plugin otherwise) and runs the interview of
    that module; the answers, as a new object, replace the raw options of
    the entry, and a rejected interview is thrown. *)
Theorem resolvePlugin_interview (host : Host) (this : Creator) l o id (h : heap) :
  h !! l = Some o ->
  has_interview host this h (prop_of o id) id = true ->
  let prompts := loadModule host (id +:+ "/prompts") (creator_context this) in
  let title :=
    if truthy (read_prop h (prop_of o id) "_isPreset") then "Preset options:" else id in
  match inquirer_prompt host h (PromptModule prompts) with
  | Ok answers =>
      events (resolvePlugin host this (VRef l) id h) =
        [EvLog MsgBlank; EvLog (MsgPluginTitle title); EvPrompt (PromptModule prompts) None] /\
      exists p,
        out (resolvePlugin host this (VRef l) id h) = Ok p /\
        plugin_id p = id /\
        plugin_options p = fst (alloc_tree (TObj answers) h) /\
        fresh_val (length h) (plugin_options p) /\
        store (resolvePlugin host this (VRef l) id h) = snd (alloc_tree (TObj answers) h)
  | Throw e =>
      events (resolvePlugin host this (VRef l) id h) =
        [EvLog MsgBlank; EvLog (MsgPluginTitle title);
         EvPrompt (PromptModule prompts) (Some e)] /\
      out (resolvePlugin host this (VRef l) id h) = Throw e
  end.
Proof.
  intros Hl Hyes prompts title. unfold has_interview in Hyes.
  apply andb_prop in Hyes as [Hflag Hmod]. fold prompts in Hmod.
  assert (Hraw : truthy (prop_of o id) = true /\ bound_val h (prop_of o id)).
  { unfold read_prop, out, get_prop in Hflag.
    destruct (prop_of o id) as [[| |b|n|s]|l'| |]; simpl in Hflag; try discriminate Hflag;
      simpl; auto.
    - destruct s; [discriminate Hflag|auto].
    - destruct (h !! l') as [o'|] eqn:Ho'; [|discriminate Hflag].
      split; [reflexivity|]. eapply lookup_lt_Some; eauto. }
  destruct Hraw as [Ht Hb].
  assert (Hrun :
    resolvePlugin host this (VRef l) id h =
      match inquirer_prompt host h (PromptModule prompts) with
      | Ok answers =>
          (Ok {| plugin_id := id;
                 plugin_apply :=
                   js_or (loadModule host (id +:+ "/generator") (creator_context this)) VNoop;
                 plugin_options := fst (alloc_tree (TObj answers) h) |},
           snd (alloc_tree (TObj answers) h),
           [EvLog MsgBlank; EvLog (MsgPluginTitle title); EvPrompt (PromptModule prompts) None])
      | Throw e =>
          (Throw e, h,
           [EvLog MsgBlank; EvLog (MsgPluginTitle title);
            EvPrompt (PromptModule prompts) (Some e)])
      end).
  { unfold resolvePlugin, bind, ret, emit, call_prompt, call_data.
    rewrite (get_prop_object l o id h Hl). cbv beta iota zeta.
    rewrite Ht. cbv beta iota zeta.
    rewrite (get_prop_bound h h _ "prompts" Hb (reflexivity h) Ht). cbv beta iota zeta.
    rewrite Hflag. fold prompts. rewrite Hmod. cbv beta iota zeta.
    rewrite (get_prop_bound h h _ "_isPreset" Hb (reflexivity h) Ht). cbv beta iota zeta.
    fold title.
    destruct (inquirer_prompt host h (PromptModule prompts)) as [answers|e]; [|reflexivity].
    destruct (alloc_tree (TObj answers) h) as [v h2]. reflexivity. }
  rewrite Hrun.
  destruct (inquirer_prompt host h (PromptModule prompts)) as [answers|e].
  - unfold events, out, store. simpl fst. simpl snd. split; [reflexivity|].
    eexists. split; [reflexivity|]. split; [reflexivity|]. split; [reflexivity|].
    split; [|reflexivity].
    cbn [plugin_options alloc_tree].
    destruct (alloc_props answers [] h) as [oa h2] eqn:Hps. simpl.
    pose proof (proj2 alloc_tree_prefix answers [] h) as Hq. rewrite Hps in Hq.
    apply prefix_length in Hq. exact Hq.
  - unfold events, out. simpl. auto.
Qed.

Lemma resolvePlugin_interview_witness :
  events (resolvePlugin sample_host sample_creator (VRef 5) "plugin-b" sample_heap) =
    [EvLog MsgBlank; EvLog (MsgPluginTitle "plugin-b");
     EvPrompt (PromptModule (VFun "plugin-b/prompts")) None] /\
  exists p,
    out (resolvePlugin sample_host sample_creator (VRef 5) "plugin-b" sample_heap) = Ok p /\
    plugin_id p = "plugin-b" /\
    plugin_options p =
      fst (alloc_tree (TObj (TCons "lint" (TPrim (PBool true)) TNil)) sample_heap) /\
    fresh_val (length sample_heap) (plugin_options p) /\
    store (resolvePlugin sample_host sample_creator (VRef 5) "plugin-b" sample_heap) =
      snd (alloc_tree (TObj (TCons "lint" (TPrim (PBool true)) TNil)) sample_heap).
Proof.
  apply (resolvePlugin_interview sample_host sample_creator 5
           [("plugin-a", VRef 6); ("plugin-b", VRef 7)] "plugin-b" sample_heap).
  - reflexivity.
  - reflexivity.
Defined.

(** ** Failures in [create] *)

(** The goal [r = Throw e /\ ends_run ev evs] for an action found in the
    explicit part of a run or in a sub-run whose failures are known. *)
Ltac ends_tac S :=
  unfold ends_run in *;
  destruct S as [S | (? & ? & ? & ? & S)];
  [ left | right; eexists _, _, _; split; [eassumption|] ];
  repeat first [ exact S | apply suffix_cons_r | apply suffix_app_r ].

Ltac failure_cases_or Hin Hf other :=
  in_cases Hin;
  first
    [ match type of Hin with
      | In _ ?l =>
          match goal with
          | F : forall ev e, In ev l -> failure_of ev = Some e -> _ |- _ =>
              let Hr := fresh "Hr" in
              let He := fresh "He" in
              destruct (F _ _ Hin Hf) as [Hr He];
              first [ discriminate Hr
                    | inversion Hr; subst; split; [reflexivity|ends_tac He] ]
          end
      end
    | subst; simpl in Hf;
      first [ discriminate Hf
            | inversion Hf; subst;
              first [ split; [reflexivity|left; suffix_tac]
                    | split; [reflexivity
                             |right; eexists _, _, _; split; [reflexivity|suffix_tac]] ] ]
    | other ].

Ltac failure_cases Hin Hf := failure_cases_or Hin Hf fail.

Lemma resolvePreset_fails_fast (host : Host) name clone h r h' evs :
  resolvePreset host name clone h = (r, h', evs) ->
  forall ev e, In ev evs -> failure_of ev = Some e -> r = Throw e /\ ends_run ev evs.
Proof.
  intros H ev e Hin Hf. unfold resolvePreset, name_includes in H.
  run_all; failure_cases Hin Hf.
Qed.

Lemma promptAndResolvePreset_fails_fast (host : Host) (this : Creator) answers h r h' evs :
  promptAndResolvePreset host this answers h = (r, h', evs) ->
  forall ev e, In ev evs -> failure_of ev = Some e -> r = Throw e /\ ends_run ev evs.
Proof.
  intros H ev e Hin Hf. unfold promptAndResolvePreset, call_prompt in H.
  run_all;
    repeat match goal with
           | R : resolvePreset _ _ _ _ = (_, _, _) |- _ =>
               pose proof (resolvePreset_fails_fast _ _ _ _ _ _ _ R); clear R
           end;
    failure_cases Hin Hf.
Qed.

Lemma resolvePlugin_fails_fast (host : Host) (this : Creator) raw id h r h' evs :
  resolvePlugin host this raw id h = (r, h', evs) ->
  forall ev e, In ev evs -> failure_of ev = Some e -> r = Throw e /\ ends_run ev evs.
Proof.
  intros H ev e Hin Hf. unfold resolvePlugin, call_prompt in H.
  run_all; failure_cases Hin Hf.
Qed.

Lemma resolvePlugins_loop_fails_fast (host : Host) (this : Creator) raw ids :
  forall acc h r h' evs,
    resolvePlugins_loop host this raw ids acc h = (r, h', evs) ->
    forall ev e, In ev evs -> failure_of ev = Some e -> r = Throw e /\ ends_run ev evs.
Proof.
  induction ids as [|id ids IH]; intros acc h r h' evs H ev e Hin Hf; simpl in H.
  - invert_prim H. destruct Hin.
  - apply bind_run in H.
    destruct H as [(e' & Hp & ->) | (p & h1 & evs1 & evs2 & Hp & H & ->)];
      pose proof (resolvePlugin_fails_fast _ _ _ _ _ _ _ _ Hp) as Fp; clear Hp.
    + destruct (Fp _ _ Hin Hf) as [Hr He]. inversion Hr; subst. auto.
    + pose proof (IH _ _ _ _ _ H) as Fl. clear H. failure_cases Hin Hf.
Qed.

Lemma resolvePlugins_fails_fast (host : Host) (this : Creator) raw h r h' evs :
  resolvePlugins host this raw h = (r, h', evs) ->
  forall ev e, In ev evs -> failure_of ev = Some e -> r = Throw e /\ ends_run ev evs.
Proof.
  intros H ev e Hin Hf. unfold resolvePlugins in H.
  apply bind_run in H.
  destruct H as [(e' & Hk & ->) | (ids & h1 & evs1 & evs2 & Hk & H & ->)];
    invert_prim Hk.
  - destruct Hin.
  - simpl in Hin. eapply resolvePlugins_loop_fails_fast; eauto.
Qed.

Lemma run_hooks_fails_fast cbs :
  forall h r h' evs,
    run_hooks cbs h = (r, h', evs) ->
    forall ev e, In ev evs -> failure_of ev = Some e -> r = Throw e /\ ends_run ev evs.
Proof.
  induction cbs as [|cb cbs IH]; intros h r h' evs H ev e Hin Hf; simpl in H.
  - invert_prim H. destruct Hin.
  - apply bind_run in H.
    destruct H as [(e' & Hc & ->) | ([] & h1 & evs1 & evs2 & Hc & H & ->)];
      apply call_hook_run in Hc; destruct Hc as (_ & [(Hr & ->)|(e'' & Hr & ->)]);
      try discriminate Hr.
    + inversion Hr; subst. failure_cases Hin Hf.
    + pose proof (IH _ _ _ _ H) as Fl. clear H.
      unfold hook_returned in Hin. failure_cases Hin Hf.
Qed.

(** The sub-runs of [create] are replaced by what is known of their
    failures. *)
Ltac sub_fails :=
  repeat match goal with
         | H : promptAndResolvePreset _ _ _ _ = (_, _, _) |- _ =>
             pose proof (promptAndResolvePreset_fails_fast _ _ _ _ _ _ _ H); clear H
         | H : create_packageManager _ _ _ = (_, _, _) |- _ =>
             apply create_packageManager_run in H; destruct H as (? & ?); subst
         | H : resolvePlugins _ _ _ _ = (_, _, _) |- _ =>
             pose proof (resolvePlugins_fails_fast _ _ _ _ _ _ _ H); clear H
         | H : run_hooks _ _ = (_, _, _) |- _ =>
             pose proof (run_hooks_fails_fast _ _ _ _ _ H); clear H
         | H : call_new_Generator _ _ _ _ _ = (_, _, _) |- _ =>
             apply call_new_Generator_run in H; destruct H as (? & ? & ? & ? & ?); subst
         end.

(** X15. [create] swallows no failure but that of [git commit]: when any
    other action of a run fails (the interview, the remote fetch, the
    validation, the construction of the package manager or of the
    generator, a file write, a spawned command, the installation, a
    callback), its error is the error that [create] throws and the failed
    action ends the run. *)
Theorem create_fails_fast (host : Host) (this : Creator) (cliOptions preset : val)
    (h : heap) ev e :
  In ev (events (create host this cliOptions preset h)) ->
  failure_of ev = Some e ->
  ev <> EvExeca "git" ["commit"; "-m"; "init"] (creator_context this) (Some e) ->
  out (create host this cliOptions preset h) = Throw e /\
  ends_run ev (events (create host this cliOptions preset h)).
Proof.
  destruct (create host this cliOptions preset h) as [[r h'] evs] eqn:H.
  unfold out, events. simpl. intros Hin Hf Hne. create_start H.
  run_all; sub_fails;
    failure_cases_or Hin Hf
      ltac:(exfalso; subst; simpl in Hf; inversion Hf; subst; apply Hne; reflexivity).
Qed.

Lemma create_fails_fast_witness :
  out (create sample_host_no_spawn sample_creator VUndefined VUndefined sample_heap) =
    Throw (Failure "spawn git EACCES") /\
  ends_run (EvExeca "git" ["init"] "/tmp/app" (Some (Failure "spawn git EACCES")))
    (events (create sample_host_no_spawn sample_creator VUndefined VUndefined sample_heap)).
Proof.
  apply (create_fails_fast sample_host_no_spawn sample_creator VUndefined VUndefined
           sample_heap).
  - vm_compute. find_in.
  - reflexivity.
  - discriminate.
Defined.

(** ** The course of [create] *)

(** X16. [create] reports success exactly when it returns: the success
    message is logged in the runs that return and in no run that throws,
    and in a run that returns the exit logs of the generator are printed
    last. *)
Theorem create_reports_success_iff_returns (host : Host) (this : Creator)
    (cliOptions preset : val) (h : heap) :
  (out (create host this cliOptions preset h) = Ok tt <->
   In (EvLog (MsgSuccess (creator_name this))) (events (create host this cliOptions preset h))) /\
  (out (create host this cliOptions preset h) = Ok tt ->
   [EvPrintExitLogs] `suffix_of` events (create host this cliOptions preset h)).
Proof.
  destruct (create host this cliOptions preset h) as [[r h'] evs] eqn:H.
  unfold out, events. simpl. create_start H.
  run_all; sub_runs;
    (split;
     [split;
      [intros Hr; first [discriminate Hr|find_in]
      |intros Hin; first [reflexivity|exfalso; in_cases Hin]]
     |intros Hr; first [discriminate Hr|suffix_tac]]).
Qed.

Lemma create_reports_success_iff_returns_witness :
  In (EvLog (MsgSuccess (creator_name sample_creator)))
     (events (create sample_host sample_creator VUndefined VUndefined sample_heap)) /\
  [EvPrintExitLogs] `suffix_of`
    events (create sample_host sample_creator VUndefined VUndefined sample_heap).
Proof.
  pose proof (create_reports_success_iff_returns sample_host sample_creator VUndefined
                VUndefined sample_heap) as T.
  split.
  - apply (proj1 (proj1 T)). reflexivity.
  - apply (proj2 T). reflexivity.
Defined.

Lemma kind_acquire_not_install ev : acquire_event ev = true -> negb (is_install ev) = true.
Proof. kind_tac. Qed.

Lemma kind_plugin_not_install ev : plugin_event ev = true -> negb (is_install ev) = true.
Proof. kind_tac. Qed.

Lemma kind_hook_not_install ev : hook_event ev = true -> negb (is_install ev) = true.
Proof. kind_tac. Qed.

(** X17. The installation of the dependencies is skipped when
    [VUE_CLI_TEST] or [VUE_CLI_DEBUG] is set: no run of [create] installs
    then.  Otherwise every run that reaches the completion hooks has
    installed the dependencies before. *)
Theorem create_installs_unless_test_or_debug (host : Host) (this : Creator)
    (cliOptions preset : val) (h : heap) :
  (truthy (js_or (env_VUE_CLI_TEST host) (env_VUE_CLI_DEBUG host)) = true ->
   all_events (fun ev => negb (is_install ev))
              (events (create host this cliOptions preset h))) /\
  (truthy (js_or (env_VUE_CLI_TEST host) (env_VUE_CLI_DEBUG host)) = false ->
   In (EvLogWithSpinner MsgRunHooks) (events (create host this cliOptions preset h)) ->
   In (EvInstall None) (events (create host this cliOptions preset h))).
Proof.
  destruct (create host this cliOptions preset h) as [[r h'] evs] eqn:H.
  unfold events. simpl. split.
  - intros Henv. create_start H. rewrite Henv in H. simpl negb in H. cbv iota in H.
    run_all; sub_runs;
      all_events_with ltac:(first [ exact kind_acquire_not_install
                                  | exact kind_plugin_not_install
                                  | exact kind_hook_not_install ]).
  - intros Henv Hin. create_start H. rewrite Henv in H. simpl negb in H. cbv iota in H.
    run_all; sub_runs; first [ find_in | exfalso; in_cases Hin ].
Qed.

Lemma create_installs_unless_test_or_debug_witness :
  all_events (fun ev => negb (is_install ev))
    (events (create sample_host_test sample_creator VUndefined VUndefined sample_heap)) /\
  In (EvInstall None)
     (events (create sample_host sample_creator VUndefined VUndefined sample_heap)).
Proof.
  split.
  - apply (proj1 (create_installs_unless_test_or_debug sample_host_test sample_creator
                    VUndefined VUndefined sample_heap)).
    reflexivity.
  - apply (proj2 (create_installs_unless_test_or_debug sample_host sample_creator
                    VUndefined VUndefined sample_heap)).
    + reflexivity.
    + vm_compute. find_in.
Defined.

(** X18. [create] warns that the commit was skipped exactly in the runs in
    which [git commit] failed. *)
Theorem create_warns_iff_commit_failed (host : Host) (this : Creator)
    (cliOptions preset : val) (h : heap) :
  In (EvWarn MsgCommitSkipped) (events (create host this cliOptions preset h)) <->
  exists e,
    In (EvExeca "git" ["commit"; "-m"; "init"] (creator_context this) (Some e))
       (events (create host this cliOptions preset h)).
Proof.
  destruct (create host this cliOptions preset h) as [[r h'] evs] eqn:H.
  unfold events. simpl. create_start H.
  run_all; sub_runs;
    (split;
     [intros Hin; first [eexists; find_in|exfalso; in_cases Hin]
     |intros [e Hin]; first [find_in|exfalso; in_cases Hin]]).
Qed.

Lemma find_skip_kind (P Q : event -> bool) (A B : list event) :
  (forall ev, P ev = true -> Q ev = false) ->
  all_events P A -> List.find Q (A ++ B) = List.find Q B.
Proof.
  intros HPQ HA. induction HA as [|ev A Hev _ IH]; simpl; [reflexivity|].
  rewrite (HPQ ev Hev). exact IH.
Qed.

Lemma find_none_kind (P Q : event -> bool) (A : list event) :
  (forall ev, P ev = true -> Q ev = false) ->
  all_events P A -> List.find Q A = None.
Proof.
  intros HPQ HA. rewrite <- (app_nil_r A).
  rewrite (find_skip_kind P Q A [] HPQ HA). reflexivity.
Qed.

Lemma kind_acquire_no_mutation ev : acquire_event ev = true -> mutates_target ev = false.
Proof. kind_tac. Qed.

(** X19. Whatever the options and the preset, the first action of
    [create] that can change the target directory is the write of
    [package.json], with the name of the project, version ['0.1.0'] and
    [private: true]. *)
Theorem create_first_mutation_is_manifest (host : Host) (this : Creator)
    (cliOptions preset : val) (h : heap) ev :
  List.find mutates_target (events (create host this cliOptions preset h)) = Some ev ->
  exists failed,
    ev = EvWriteFileTree (creator_context this) "package.json"
           (JsonManifest (creator_name this) "0.1.0" true) failed.
Proof.
  destruct (create host this cliOptions preset h) as [[r h'] evs] eqn:H.
  unfold events. simpl. intros Hfind. create_start H.
  run_all; sub_runs;
    rewrite ?(find_skip_kind acquire_event mutates_target _ _ kind_acquire_no_mutation)
      in Hfind by assumption;
    rewrite ?(find_none_kind acquire_event mutates_target _ kind_acquire_no_mutation)
      in Hfind by assumption;
    simpl in Hfind;
    first [ discriminate Hfind | inversion Hfind; eexists; reflexivity ].
Qed.

Lemma create_first_mutation_is_manifest_witness :
  exists failed,
    EvWriteFileTree "/tmp/app" "package.json" (JsonManifest "app" "0.1.0" true) None =
    EvWriteFileTree (creator_context sample_creator) "package.json"
      (JsonManifest (creator_name sample_creator) "0.1.0" true) failed.
Proof.
  apply (create_first_mutation_is_manifest sample_host sample_creator VUndefined VUndefined
           sample_heap).
  vm_compute. reflexivity.
Defined.

Lemma kind_plugin_not_acquisition ev :
  plugin_event ev = true -> negb (acquisition_step ev) = true.
Proof. kind_tac. Qed.

Lemma kind_hook_not_acquisition ev :
  hook_event ev = true -> negb (acquisition_step ev) = true.
Proof. kind_tac. Qed.

Lemma truthy_supplied_preset preset :
  truthy preset = true ->
  truthy (match preset with VPrim PUndefined => VNull | _ => preset end) = true.
Proof. destruct preset as [[| | | |]| | |]; simpl; congruence. Qed.

(** X20. When the caller supplies a preset (any truthy value), [create]
    takes it as it is: no run interviews the user for a preset, prints the
    console output of [resolvePreset], fetches a remote preset or validates
    anything. *)
Theorem create_supplied_preset_skips_acquisition (host : Host) (this : Creator)
    (cliOptions preset : val) (h : heap) :
  truthy preset = true ->
  all_events (fun ev => negb (acquisition_step ev))
             (events (create host this cliOptions preset h)).
Proof.
  intros Hp. apply truthy_supplied_preset in Hp.
  destruct (create host this cliOptions preset h) as [[r h'] evs] eqn:H.
  unfold events. simpl. create_start H.
  rewrite Hp in H. simpl negb in H. cbv iota in H.
  run_all; sub_runs;
    all_events_with ltac:(first [ exact kind_plugin_not_acquisition
                                | exact kind_hook_not_acquisition ]).
Qed.

Lemma create_supplied_preset_skips_acquisition_witness :
  all_events (fun ev => negb (acquisition_step ev))
             (events (create sample_host sample_creator VUndefined (VRef 4) sample_heap)).
Proof.
  apply (create_supplied_preset_skips_acquisition sample_host sample_creator VUndefined
           (VRef 4) sample_heap).
  reflexivity.
Defined.

(** [in_cases] for runs whose callbacks are listed. *)
Ltac in_cases_hooks H :=
  in_cases H;
  try (apply in_map_iff in H; destruct H as (? & H & _);
       unfold hook_returned in H; discriminate H).

(** X21. When [create] comes to write [README.md], the generator has been
    constructed and every completion callback has returned; the README is
    generated from the [pkg] of the generator (not from the manifest object
    that [create] built) and from the package manager with which the
    package manager object was constructed. *)
Theorem create_readme_after_hooks (host : Host) (this : Creator)
    (cliOptions preset : val) (h : heap) content failed :
  In (EvWriteFileTree (creator_context this) "README.md" content failed)
     (events (create host this cliOptions preset h)) ->
  exists hg pkg plugins g g1 g2 packageManager,
    snd (new_Generator host hg (creator_context this) pkg plugins) = Ok (g, g1, g2) /\
    content = ReadmeOf (generator_pkg g) packageManager /\
    In (EvNewPackageManager (creator_context this) packageManager None)
       (events (create host this cliOptions preset h)) /\
    List.filter hook_event (events (create host this cliOptions preset h)) =
      map hook_returned ((afterInvokeCbs this ++ g1) ++ (afterAnyInvokeCbs this ++ g2)).
Proof.
  destruct (create host this cliOptions preset h) as [[r h'] evs] eqn:H.
  unfold events. simpl. intros Hin. create_start H.
  run_all; hooks_runs; sub_runs; try (exfalso; in_cases_hooks Hin; fail).
  all: match goal with
       | G : Ok ?x = snd (new_Generator _ ?hg _ ?pkg ?plugins) |- _ =>
           exists hg, pkg, plugins, (fst (fst x)), (snd (fst x)), (snd x);
           eexists;
           split; [rewrite <- G; destruct x as [[? ?] ?]; reflexivity|]
       end.
  all: split; [in_cases_hooks Hin; inversion Hin; reflexivity|].
  all: split; [find_in|].
  all: filter_hooks; rewrite !List.map_app, <- ?app_assoc; reflexivity.
Qed.

Lemma create_readme_after_hooks_witness :
  exists hg pkg plugins g g1 g2 packageManager,
    snd (new_Generator sample_host hg (creator_context sample_creator) pkg plugins)
      = Ok (g, g1, g2) /\
    ReadmeOf (VRef 25) (VStr "pnpm") = ReadmeOf (generator_pkg g) packageManager /\
    In (EvNewPackageManager (creator_context sample_creator) packageManager None)
       (events (create sample_host sample_creator VUndefined VUndefined sample_heap)) /\
    List.filter hook_event
      (events (create sample_host sample_creator VUndefined VUndefined sample_heap)) =
      map hook_returned
        ((afterInvokeCbs sample_creator ++ g1) ++ (afterAnyInvokeCbs sample_creator ++ g2)).
Proof.
  apply (create_readme_after_hooks sample_host sample_creator VUndefined VUndefined
           sample_heap _ None).
  vm_compute. find_in.
Defined.

(** X22. The only events that [create] emits are ['creation'] events,
    tagged ['git-init'] (only on a host with git) or ['plugins-install'];
    the latter has been emitted in every run that constructs the
    generator. *)
Theorem create_emits_creation_events (host : Host) (this : Creator)
    (cliOptions preset : val) (h : heap) :
  (forall channel tag,
     In (EvEmit channel tag) (events (create host this cliOptions preset h)) ->
     channel = "creation" /\
     ((tag = "git-init" /\ hasGit host = true) \/ tag = "plugins-install")) /\
  (forall context pkg plugins failed,
     In (EvNewGenerator context pkg plugins failed)
        (events (create host this cliOptions preset h)) ->
     In (EvEmit "creation" "plugins-install") (events (create host this cliOptions preset h))).
Proof.
  destruct (create host this cliOptions preset h) as [[r h'] evs] eqn:H.
  unfold events. simpl. create_start H.
  run_all; sub_runs; split.
  all: try (intros channel tag Hin; in_cases Hin; inversion Hin; subst;
            (split; [reflexivity|]);
            first [ right; reflexivity
                  | left; split; [reflexivity|];
                    match goal with
                    | G : shouldInitGit _ _ = true |- _ =>
                        unfold shouldInitGit in G; destruct (hasGit host);
                        [reflexivity|discriminate G]
                    end ]).
  all: intros context pkg plugins failed Hin; first [ find_in | exfalso; in_cases Hin ].
Qed.

Lemma create_emits_creation_events_witness :
  ("creation" = "creation" /\
   (("git-init" = "git-init" /\ hasGit sample_host = true) \/
    "git-init" = "plugins-install")) /\
  In (EvEmit "creation" "plugins-install")
     (events (create sample_host sample_creator VUndefined VUndefined sample_heap)).
Proof.
  pose proof (create_emits_creation_events sample_host sample_creator VUndefined
                VUndefined sample_heap) as T.
  split.
  - apply (proj1 T). vm_compute. find_in.
  - eapply (proj2 T). vm_compute. find_in.
Defined.

Lemma clone_prop (h x0 : heap) l o k (A B : heap) :
  h !! l = Some o -> h `prefix_of` x0 ->
  get_prop (VRef (length x0 + l)) k (((x0 ++ map (shift_object (length x0)) x0) ++ A) ++ B) =
    (Ok (shift_val (length x0) (prop_of o k)),
     ((x0 ++ map (shift_object (length x0)) x0) ++ A) ++ B, []).
Proof.
  intros Hl Hpre. pose proof (prefix_lookup_Some _ _ _ _ Hl Hpre) as Hx.
  assert (Hc : (((x0 ++ map (shift_object (length x0)) x0) ++ A) ++ B) !! (length x0 + l)
               = Some (shift_object (length x0) o)).
  { assert (Hm : (x0 ++ map (shift_object (length x0)) x0) !! (length x0 + l)
                 = Some (shift_object (length x0) o)).
    { rewrite lookup_app_r by lia.
      replace (length x0 + l - length x0) with l by lia.
      rewrite list_lookup_fmap. rewrite Hx. reflexivity. }
    rewrite <- app_assoc. apply lookup_app_l_Some. exact Hm. }
  rewrite (get_prop_object _ _ k _ Hc). do 2 f_equal. f_equal.
  unfold prop_of, obj_lookup, shift_object. clear.
  induction o as [|[k' v] o IH]; simpl.
  - unfold inherited. destruct (String.eqb k "constructor"); [reflexivity|].
    destruct (String.eqb k "__proto__"); [reflexivity|].
    destruct (existsb (String.eqb k) object_prototype_methods); reflexivity.
  - destruct (String.eqb k' k); [reflexivity|exact IH].
Qed.

(** X23. A preset object without [plugins] ([undefined] or [null]) makes
    [create] throw before anything can change the target directory: once
    the package manager object is constructed, the error is the TypeError
    of [Object.keys(preset.plugins)], and [package.json] is not written. *)
Theorem create_preset_without_plugins (host : Host) (this : Creator)
    (cliOptions preset : val) (h : heap) o :
  object_at h preset o ->
  nullish (prop_of o "plugins") = true ->
  (exists e, out (create host this cliOptions preset h) = Throw e) /\
  all_events (fun ev => negb (mutates_target ev))
             (events (create host this cliOptions preset h)) /\
  (forall packageManager,
     In (EvNewPackageManager (creator_context this) packageManager None)
        (events (create host this cliOptions preset h)) ->
     exists what, out (create host this cliOptions preset h) = Throw (TypeError what)).
Proof.
  intros (l & -> & Hl) Hnull.
  destruct (create host this cliOptions (VRef l) h) as [[r h'] evs] eqn:H.
  unfold out, events. simpl. create_start H.
  simpl truthy in H. simpl negb in H. cbv iota in H. simpl cloneDeep in H.
  repeat first
    [ run_one
    | match goal with
      | E : (_, _, _) = (_, _, _) |- _ => inversion E; clear E; subst
      end ];
    sub_runs;
    repeat match goal with
           | E : _ = out (get_prop (VRef (length ?x0 + l)) "plugins" _) |- _ =>
               rewrite (clone_prop h x0 l o "plugins" _ _ Hl ltac:(assumption)) in E;
               unfold out in E; simpl in E;
               first [ discriminate E | inversion E; clear E; subst ]
           end;
    destruct (prop_of o "plugins") as [[| | | |]| | |]; try discriminate Hnull;
    repeat match goal with
           | E : _ = out (Object_keys _ _) |- _ =>
               unfold out, Object_keys in E; simpl in E;
               first [ discriminate E | inversion E; clear E; subst ]
           end;
    (split; [eexists; reflexivity|]);
    (split; [all_events_tac|]);
    intros pm Hin; first [ eexists; reflexivity | exfalso; in_cases Hin ].
Qed.

Lemma create_preset_without_plugins_witness :
  (exists e,
     out (create sample_host sample_creator VUndefined (VRef 6) sample_heap) = Throw e) /\
  all_events (fun ev => negb (mutates_target ev))
             (events (create sample_host sample_creator VUndefined (VRef 6) sample_heap)) /\
  (forall packageManager,
     In (EvNewPackageManager (creator_context sample_creator) packageManager None)
        (events (create sample_host sample_creator VUndefined (VRef 6) sample_heap)) ->
     exists what,
       out (create sample_host sample_creator VUndefined (VRef 6) sample_heap) =
         Throw (TypeError what)).
Proof.
  apply (create_preset_without_plugins sample_host sample_creator VUndefined (VRef 6)
           sample_heap []).
  - exists 6. split; reflexivity.
  - reflexivity.
Defined.

Lemma clone_cell (h x0 : heap) l o (A B : heap) :
  h !! l = Some o -> h `prefix_of` x0 ->
  (((x0 ++ map (shift_object (length x0)) x0) ++ A) ++ B) !! (length x0 + l)
    = Some (shift_object (length x0) o).
Proof.
  intros Hl Hpre. pose proof (prefix_lookup_Some _ _ _ _ Hl Hpre) as Hx.
  rewrite <- app_assoc. apply lookup_app_l_Some.
  rewrite lookup_app_r by lia.
  replace (length x0 + l - length x0) with l by lia.
  rewrite list_lookup_fmap. rewrite Hx. reflexivity.
Qed.

Lemma obj_keys_shift n o : obj_keys (shift_object n o) = obj_keys o.
Proof.
  unfold obj_keys, shift_object. rewrite map_map. reflexivity.
Qed.

(** X24. For a supplied preset object whose [plugins] is an object, the
    generator is constructed for the target directory with a manifest
    object that is new in the store and with one resolved plugin per key of
    the preset's [plugins], in the order of the keys. *)
Theorem create_generator_arguments (host : Host) (this : Creator)
    (cliOptions preset : val) (h : heap) o op context pkg plugins failed :
  object_at h preset o ->
  object_at h (prop_of o "plugins") op ->
  In (EvNewGenerator context pkg plugins failed)
     (events (create host this cliOptions preset h)) ->
  context = creator_context this /\
  fresh_val (length h) pkg /\
  map plugin_id plugins = obj_keys op.
Proof.
  intros (l & -> & Hl) (lp & Hlp & Hop).
  destruct (create host this cliOptions (VRef l) h) as [[r h'] evs] eqn:H.
  unfold events. simpl. intros Hin. create_start H.
  simpl truthy in H. simpl negb in H. cbv iota in H. simpl cloneDeep in H.
  repeat first
    [ run_one
    | match goal with
      | E : (_, _, _) = (_, _, _) |- _ => inversion E; clear E; subst
      end ];
    repeat match goal with
           | R : create_packageManager _ _ _ = (_, _, _) |- _ =>
               apply create_packageManager_run in R; destruct R as (? & ?); subst
           end;
    repeat match goal with
           | E : _ = out (get_prop (VRef (length ?x0 + l)) "plugins" _) |- _ =>
               rewrite (clone_prop h x0 l o "plugins" _ _ Hl ltac:(assumption)) in E;
               unfold out in E; simpl in E;
               first [ discriminate E | inversion E; clear E; subst ]
           end;
    rewrite ?Hlp in *; simpl shift_val in *;
    repeat match goal with
           | R : resolvePlugins _ _ (VRef (length ?x0 + lp)) _ = (_, _, _) |- _ =>
               apply (resolvePlugins_run host this (length x0 + lp)
                        (shift_object (length x0) op)) in R;
               [|apply (clone_cell h x0 lp op); assumption];
               destruct R as (? & ? & R); try rewrite obj_keys_shift in R
           end;
    sub_runs; in_cases Hin; inversion Hin; subst;
    (split; [reflexivity|]);
    (split;
     [simpl; rewrite !length_app;
      match goal with P : h `prefix_of` _ |- _ => apply prefix_length in P end; lia
     |match goal with R : map plugin_id _ = _ /\ _ |- _ => apply R end]).
Qed.

Lemma create_generator_arguments_witness :
  "/tmp/app" = creator_context sample_creator /\
  fresh_val (length sample_heap) (VRef 23) /\
  map plugin_id
    [{| plugin_id := "plugin-a"; plugin_apply := VFun "plugin-a/generator";
        plugin_options := VRef 17 |};
     {| plugin_id := "plugin-b"; plugin_apply := VNoop; plugin_options := VRef 24 |}]
    = obj_keys [("plugin-a", VRef 6); ("plugin-b", VRef 7)].
Proof.
  apply (create_generator_arguments sample_host sample_creator VUndefined (VRef 4)
           sample_heap [("plugins", VRef 5)] [("plugin-a", VRef 6); ("plugin-b", VRef 7)]
           _ _ _ None).
  - exists 4. split; reflexivity.
  - exists 5. split; reflexivity.
  - vm_compute. find_in.
Defined.
